(** * HubWatcher: itinerary identity, deduplication and reconciliation

    A shallow embedding of the core of the HubWatcher scripts:
    - [mapper-kiwi.py]          ([generate_itinerary_id],
                                 [simplify_kiwi_json]),
    - [analysis-combined.py]    ([extract_segments_and_carriers],
                                 [process_segments],
                                 [generate_edreams_itinerary_id],
                                 the loop of [simplify_edreams_json],
                                 [compute_hub_count], [hub_distribution],
                                 [format_distribution], [analyze_journey]),
    - [analysis2.py]            (the script up to its overall percentage),
    - [test1/remove-duplicates.py] ([remove_duplicates]).

    Python values are modelled as follows.
    - A [dict] whose iteration order is observable (the dictionary that
      deduplicates the Kiwi list, whose [values()] become a list) is an
      association list in insertion order.
    - A [dict] used only as a map (the hub histogram, which is sorted before
      it is formatted) is a [gmap].
    - A [set] of strings is a [gset string]; iterating over it goes through an
      explicit [hash_order], because CPython's iteration order over a set of
      strings depends on the per-process hash seed.
    - A raised exception is the [Raise] branch of [result].
    - A float is a [pyfloat]: a rational, an infinity or NaN, with Python's
      [<].  Only comparisons of prices are modelled; percentages are the exact
      rational [100 * a / b] of two integers, which the float result rounds. *)

From Stdlib Require Import QArith DecimalString DecimalNat Ascii.
From stdpp Require Import gmap strings list sorting.

(** ** Python runtime *)

Module Py.

Inductive pyerr :=
| KeyError | ValueError | TypeError | ZeroDivisionError | StopIteration.

Inductive result (A : Type) :=
| Ok (a : A)
| Raise (e : pyerr).
Arguments Ok {A} a.
Arguments Raise {A} e.

Definition bind {A B} (m : result A) (k : A → result B) : result B :=
  match m with
  | Ok a => k a
  | Raise e => Raise e
  end.

Definition is_ok {A} (m : result A) : bool :=
  match m with Ok _ => true | Raise _ => false end.

(** [for x in l: acc = f(acc, x)], stopping at the first exception. *)
Fixpoint foldM {A S} (f : S → A → result S) (l : list A) (s : S) : result S :=
  match l with
  | [] => Ok s
  | x :: t => bind (f s x) (foldM f t)
  end.

(** [[g(x) for x in l if c(x)]]: [f x] is [Ok None] when the condition
    fails, [Ok (Some y)] when the element is kept. *)
Fixpoint comprehension {A B} (f : A → result (option B)) (l : list A)
  : result (list B) :=
  match l with
  | [] => Ok []
  | x :: t =>
      bind (f x) (λ o,
        bind (comprehension f t) (λ r,
          Ok (match o with Some y => y :: r | None => r end)))
  end.

(** Floats, as far as [<] and [min] see them. *)
Inductive pyfloat :=
| FFin (q : Q)
| FPosInf
| FNegInf
| FNaN.

Definition Qltb (a b : Q) : bool := negb (Qle_bool b a).

Definition float_lt (a b : pyfloat) : bool :=
  match a, b with
  | FNaN, _ | _, FNaN => false
  | FFin x, FFin y => Qltb x y
  | FFin _, FPosInf => true
  | FFin _, FNegInf => false
  | FPosInf, _ => false
  | FNegInf, FNegInf => false
  | FNegInf, _ => true
  end.

(** The builtin [min] of a non-empty sequence keeps the first of the
    smallest items; on an empty one it raises [ValueError]. *)
Definition py_min (l : list pyfloat) : result pyfloat :=
  match l with
  | [] => Raise ValueError
  | x :: t => Ok (fold_left (λ m y, if float_lt y m then y else m) t x)
  end.

(** [a / b] on integers: true division, [ZeroDivisionError] on [b = 0]. *)
Definition truediv (a b : Z) : result Q :=
  if Z.eqb b 0 then Raise ZeroDivisionError
  else Ok (inject_Z a / inject_Z b)%Q.

(** [str(n)] for a length or a count. *)
Definition str (n : nat) : string := NilEmpty.string_of_uint (Nat.to_uint n).

(** [s[2:]] *)
Definition drop2 (s : string) : string :=
  String.substring 2 (String.length s - 2) s.

(** Truthiness of [d.get(k)] for a string-valued key. *)
Definition truthy (o : option string) : bool :=
  match o with
  | Some s => negb (String.eqb s "")
  | None => false
  end.

(** The values a JSON document can hold under ["price"], as far as
    [float(...)] distinguishes them. *)
Inductive jvalue :=
| JNumber (f : pyfloat)
| JString (s : string)
| JNull.

(** Insertion-ordered dictionary with string keys. *)
Section odict.
Context {V : Type}.

Fixpoint od_get (d : list (string * V)) (k : string) : option V :=
  match d with
  | [] => None
  | (k', v) :: t => if String.eqb k' k then Some v else od_get t k
  end.

(** [d[k] = v]: an existing key keeps its position. *)
Fixpoint od_set (d : list (string * V)) (k : string) (v : V)
  : list (string * V) :=
  match d with
  | [] => [(k, v)]
  | (k', v') :: t =>
      if String.eqb k' k then (k', v) :: t else (k', v') :: od_set t k v
  end.

Definition od_values (d : list (string * V)) : list V := map snd d.
Definition od_keys (d : list (string * V)) : list string := map fst d.
End odict.

(** The order in which this process iterates over a set of strings. *)
Record hash_order := HashOrder {
  set_iter : gset string → list string;
  set_iter_perm : ∀ s, set_iter s ≡ₚ elements s
}.

End Py.
Import Py.

#[global] Instance result_ret : MRet result := @Ok.
#[global] Instance result_bind : MBind result := λ A B k m, bind m k.

(** ** mapper-kiwi.py *)

Module MapperKiwi.

(** [sector["segment"]] of the raw Kiwi document; an absent key is [None]. *)
Record kiwi_segment := KiwiSegment {
  source_station_code : option string;
  destination_station_code : option string;
  carrier_code : option string;
  code : option string
}.

(** [outbound.sectorSegments] and [inbound.sectorSegments]; an absent list
    is the empty one. *)
Record kiwi_itinerary := KiwiItinerary {
  outbound_sectors : list kiwi_segment;
  inbound_sectors : list kiwi_segment
}.

Definition generate_itinerary_id (itinerary : kiwi_itinerary) : string :=
  let sectors := outbound_sectors itinerary ++ inbound_sectors itinerary in
  let segments :=
    map (λ sg, default "" (carrier_code sg) +:+ "-" +:+ default "" (code sg))
        sectors in
  let carriers : gset string :=
    list_to_set (map (λ sg, default "" (carrier_code sg)) sectors) in
  let segment_count := length segments in
  let carrier_count := size carriers in
  "s" +:+ str segment_count +:+ "-c" +:+ str carrier_count +:+ "-"
      +:+ String.concat "-" segments.

End MapperKiwi.

(** ** analysis-combined.py, mapper part *)

Module MapperEdreams.

(** A dictionary built by [process_segments]: every field is a string. *)
Record edo_segment := EdoSegment {
  sourceStationId : string;
  destinationStationId : string;
  departureLocalTime : string;
  arrivalLocalTime : string;
  flightCode : string;
  carrierCode : string
}.

(** The [itinerary] argument is not used by the source. *)
Definition generate_edreams_itinerary_id
    (segments : list edo_segment) (section_count : nat) : string :=
  let carriers : gset string := list_to_set (map carrierCode segments) in
  let carrier_count := size carriers in
  let segment_details :=
    map (λ seg, "-" +:+ carrierCode seg +:+ "-" +:+ drop2 (flightCode seg))
        segments in
  "s" +:+ str section_count +:+ "-c" +:+ str carrier_count
      +:+ String.concat "" segment_details.

End MapperEdreams.

(** ** test1/remove-duplicates.py and analysis-combined.py, analysis part *)

Module Analysis.

(** One flight leg of a simplified itinerary, as [seg.get(...)] sees it:
    [None] stands for an absent key or a JSON [null]. *)
Record segment := Segment {
  sourceStationId : option string;
  destinationStationId : option string;
  departureLocalTime : option string;
  arrivalLocalTime : option string;
  flightCode : option string;
  carrierCode : option string
}.

(** One record of [kiwi-simplified.json] or [edreams-simplified.json].
    [itin_id] and [itin_price] are the keys ["id"] and ["price"], [None]
    when the key is absent; an absent ["outbound"] or ["inbound"] is the
    empty list, as in [itin.get("outbound", [])]. *)
Record itinerary := Itinerary {
  itin_id : option string;
  itin_price : option jvalue;
  outbound : list segment;
  inbound : list segment
}.

Definition all_segments (itin : itinerary) : list segment :=
  outbound itin ++ inbound itin.

(** [it["id"]] *)
Definition get_id (it : itinerary) : result string :=
  match itin_id it with
  | Some i => Ok i
  | None => Raise KeyError
  end.

(** *** remove_duplicates *)

(** [entry.get("id")] is falsy for an absent, null or empty id. *)
Definition remove_duplicates_step
    (unique_itineraries : list (string * itinerary)) (entry : itinerary)
  : list (string * itinerary) :=
  match itin_id entry with
  | Some itinerary_id =>
      if truthy (Some itinerary_id)
         && negb (bool_decide (is_Some (od_get unique_itineraries itinerary_id)))
      then od_set unique_itineraries itinerary_id entry
      else unique_itineraries
  | None => unique_itineraries
  end.

Definition remove_duplicates (data : list itinerary) : list itinerary :=
  od_values (fold_left remove_duplicates_step data []).

(** *** Hub distribution helpers *)

Definition compute_hub_count (itin : itinerary) : Z :=
  let len_outbound := Z.of_nat (length (outbound itin)) in
  let len_inbound := Z.of_nat (length (inbound itin)) in
  let hubs_outbound := if (0 <? len_outbound)%Z then (len_outbound - 1)%Z else 0%Z in
  let hubs_inbound := if (0 <? len_inbound)%Z then (len_inbound - 1)%Z else 0%Z in
  Z.max hubs_outbound hubs_inbound.

Definition hub_distribution (itineraries : list itinerary) : gmap Z nat :=
  fold_left
    (λ dist itin,
       let count := compute_hub_count itin in
       <[count := default 0 (dist !! count) + 1]> dist)
    itineraries ∅.

(** The order of [sorted(dist.items())]; the keys of a dictionary are
    distinct, so the items are ordered by key. *)
Definition item_le (a b : Z * nat) : Prop := (a.1 ≤ b.1)%Z.
#[global] Instance item_le_dec : RelDecision item_le.
Proof. intros a b. unfold item_le. apply _. Defined.

(** One item of the formatted distribution: hub count, frequency, and
    [100*v/total], which the source renders with two decimals. *)
Definition format_distribution (dist : gmap Z nat) (total : nat)
  : result (list (Z * nat * Q)) :=
  foldM
    (λ acc kv,
       pct ← truediv (100 * Z.of_nat kv.2) (Z.of_nat total);
       Ok (acc ++ [(kv.1, kv.2, pct)]))
    (merge_sort item_le (map_to_list dist)) [].

(** *** Pieces of analyze_journey *)

(** [100 * a / b if b else 0] *)
Definition percent_or_zero (a b : nat) : result Q :=
  if Nat.eqb b 0 then Ok 0%Q else truediv (100 * Z.of_nat a) (Z.of_nat b).

(** [seg.get("sourceStationId") == hub or seg.get("destinationStationId") == hub] *)
Definition touches (seg : segment) (hub : string) : bool :=
  bool_decide (sourceStationId seg = Some hub)
  || bool_decide (destinationStationId seg = Some hub).

(** The two loops with [break] that set [uses_hub]. *)
Definition uses_hub (itin : itinerary) (hub : string) : bool :=
  existsb (λ seg, touches seg hub) (outbound itin)
  || existsb (λ seg, touches seg hub) (inbound itin).

Definition add_locations (locs : gset string) (segs : list segment)
  : gset string :=
  fold_left
    (λ locs seg,
       let locs1 :=
         if truthy (sourceStationId seg)
         then locs ∪ {[default "" (sourceStationId seg)]} else locs in
       if truthy (destinationStationId seg)
       then locs1 ∪ {[default "" (destinationStationId seg)]} else locs1)
    segs locs.

Definition locations (itins : list itinerary) : gset string :=
  fold_left
    (λ locs itin, add_locations (add_locations locs (outbound itin)) (inbound itin))
    itins ∅.

(** [f"{seg['carrierCode']}{seg['flightCode']}"] for the segments that have
    both fields. *)
Definition add_flights (flights : gset string) (segs : list segment)
  : gset string :=
  fold_left
    (λ flights seg,
       if truthy (carrierCode seg) && truthy (flightCode seg)
       then flights ∪ {[default "" (carrierCode seg) +:+ default "" (flightCode seg)]}
       else flights)
    segs flights.

Definition flights_of (itins : list itinerary) : gset string :=
  fold_left
    (λ flights itin, add_flights (add_flights flights (outbound itin)) (inbound itin))
    itins ∅.

(** [kiwi_flights and kiwi_flights.issubset(edreams_flights)] *)
Definition constructible (itin : itinerary) (edreams_flights : gset string)
  : bool :=
  let kiwi_flights := add_flights ∅ (all_segments itin) in
  negb (bool_decide (kiwi_flights = ∅))
  && bool_decide (kiwi_flights ⊆ edreams_flights).

Record hub_info := HubInfo {
  Hub : string;
  Usage : nat;
  Cheaper_Usage : nat
}.

(** The result mapping, restricted to the metrics that are counts, sets and
    ratios of counts.  The averages of price differences, the carrier
    statistics and the string renderings are computed from the same values
    by blocks that read only validated records behind the same guards. *)
Record report := Report {
  Total_Kiwi : nat;
  Total_eDreams : nat;
  Repeated : nat;
  Repeated_pct_Kiwi : Q;
  Repeated_pct_eDO : Q;
  Missing_Content : nat * Q;
  Cheapest_eDreams : pyfloat;
  Cheapest_Kiwi : pyfloat;
  Kiwi_cheaper : nat * Q;
  eDreams_cheaper : nat * Q;
  Overall_pct_Kiwi_cheaper : Q;
  Kiwi_cheaper_than_eDO_cheapest : nat * Q * Q;
  Missing_Hub_Cities : gset string;
  Missing_Cheaper_Hubs_Count : nat;
  Missing_Flights : gset string;
  Constructible : nat * Q;
  Constructible_among_Cheap : nat * Q;
  Hub_Breakdown : list hub_info;
  Hubs_Distribution_All : list (Z * nat * Q);
  Hubs_Distribution_Cheap : list (Z * nat * Q)
}.

Section analyze.

(** [float(s)] on a string: the float it denotes, or [None] where Python
    raises [ValueError]. *)
Variable float_of_str : string → option pyfloat.

(** [float(v)] *)
Definition py_float (v : jvalue) : result pyfloat :=
  match v with
  | JNumber f => Ok f
  | JString s =>
      match float_of_str s with
      | Some f => Ok f
      | None => Raise ValueError
      end
  | JNull => Raise TypeError
  end.

(** [float(it["price"])] *)
Definition get_price (it : itinerary) : result pyfloat :=
  match itin_price it with
  | Some v => py_float v
  | None => Raise KeyError
  end.

(** Lines 192-198: one round of the deduplication loop. *)
Definition dedup_step (unique_kiwi_dict : list (string * itinerary))
    (it : itinerary) : result (list (string * itinerary)) :=
  it_id ← get_id it;
  it_price ← get_price it;
  match od_get unique_kiwi_dict it_id with
  | None => Ok (od_set unique_kiwi_dict it_id it)
  | Some kept =>
      kept_price ← get_price kept;
      Ok (if float_lt it_price kept_price
          then od_set unique_kiwi_dict it_id it
          else unique_kiwi_dict)
  end.

Definition dedup (kiwi_data : list itinerary)
  : result (list (string * itinerary)) :=
  foldM dedup_step kiwi_data [].

(** [{entry["id"] for entry in data}] *)
Definition id_set (data : list itinerary) : result (gset string) :=
  ids ← comprehension (λ entry, i ← get_id entry; Ok (Some i)) data;
  Ok (list_to_set ids).

(** [min(float(entry["price"]) for entry in data)] *)
Definition cheapest (data : list itinerary) : result pyfloat :=
  prices ← comprehension (λ entry, p ← get_price entry; Ok (Some p)) data;
  py_min prices.

(** [[entry["id"] for entry in data if float(entry["price"]) < bound]] *)
Definition ids_cheaper_than (bound : pyfloat) (data : list itinerary)
  : result (list string) :=
  comprehension
    (λ entry,
       p ← get_price entry;
       if float_lt p bound then i ← get_id entry; Ok (Some i) else Ok None)
    data.

(** [float(next(entry["price"] for entry in data if entry["id"] == itinerary_id))] *)
Fixpoint next_price (data : list itinerary) (itinerary_id : string)
  : result pyfloat :=
  match data with
  | [] => Raise StopIteration
  | entry :: rest =>
      i ← get_id entry;
      if String.eqb i itinerary_id then get_price entry
      else next_price rest itinerary_id
  end.

(** Lines 225-235; the state is
    [(eDreams_cheaper_count, kiwi_cheaper_count)]. *)
Definition compare_step (edreams_data unique_kiwi : list itinerary)
    (counts : nat * nat) (itinerary_id : string) : result (nat * nat) :=
  edreams_price ← next_price edreams_data itinerary_id;
  kiwi_price ← next_price unique_kiwi itinerary_id;
  Ok (if float_lt edreams_price kiwi_price then (S counts.1, counts.2)
      else if float_lt kiwi_price edreams_price then (counts.1, S counts.2)
      else counts).

(** Lines 244-246. *)
Definition count_cheaper_non_repeated (not_repeated_kiwi : gset string)
    (bound : pyfloat) (unique_kiwi : list itinerary) : result nat :=
  hits ← comprehension
    (λ entry,
       i ← get_id entry;
       if bool_decide (i ∈ not_repeated_kiwi) then
         p ← get_price entry;
         Ok (if float_lt p bound then Some tt else None)
       else Ok None)
    unique_kiwi;
  Ok (length hits).

(** Lines 285-308: the row of one missing hub. *)
Definition hub_row (cheaper_ids : list string) (unique_kiwi : list itinerary)
    (hub : string) : result hub_info :=
  counts ← foldM
    (λ (counts : nat * nat) itin,
       if uses_hub itin hub then
         i ← get_id itin;
         Ok (S counts.1,
             if bool_decide (i ∈ cheaper_ids) then S counts.2 else counts.2)
       else Ok counts)
    unique_kiwi (0, 0);
  Ok (HubInfo hub counts.1 counts.2).

(** Lines 368-376. *)
Definition count_constructible (missing_in_edreams edreams_flights : gset string)
    (unique_kiwi : list itinerary) : result nat :=
  hits ← comprehension
    (λ itin,
       i ← get_id itin;
       Ok (if bool_decide (i ∈ missing_in_edreams) && constructible itin edreams_flights
           then Some tt else None))
    unique_kiwi;
  Ok (length hits).

(** Lines 347-355. *)
Definition flights_of_missing (missing_in_edreams : gset string)
    (unique_kiwi : list itinerary) : result (gset string) :=
  foldM
    (λ flights itin,
       i ← get_id itin;
       Ok (if bool_decide (i ∈ missing_in_edreams)
           then add_flights (add_flights flights (outbound itin)) (inbound itin)
           else flights))
    unique_kiwi ∅.

(** [[itin for itin in data if float(itin["price"]) < bound]] *)
Definition itins_cheaper_than (bound : pyfloat) (data : list itinerary)
  : result (list itinerary) :=
  comprehension
    (λ itin, p ← get_price itin; Ok (if float_lt p bound then Some itin else None))
    data.

(** [{it["id"]: it for it in data}]: the last record of an id wins and
    sits where the id was first seen. *)
Definition dict_by_id (data : list itinerary)
  : result (list (string * itinerary)) :=
  foldM (λ d it, i ← get_id it; Ok (od_set d i it)) data [].

(** [{it["id"]: it for it in data if float(it["price"]) < bound}] *)
Definition dict_by_id_cheaper_than (bound : pyfloat) (data : list itinerary)
  : result (list (string * itinerary)) :=
  foldM
    (λ d it,
       p ← get_price it;
       if float_lt p bound then i ← get_id it; Ok (od_set d i it) else Ok d)
    data [].

Definition analyze_journey (h : hash_order)
    (kiwi_data edreams_data : list itinerary) : result report :=
  unique_kiwi_dict ← dedup kiwi_data;
  let unique_kiwi := od_values unique_kiwi_dict in
  let total_unique_kiwi := length unique_kiwi in
  kiwi_itinerary_ids ← id_set unique_kiwi;
  edreams_itinerary_ids ← id_set edreams_data;
  let repeated_itineraries := kiwi_itinerary_ids ∩ edreams_itinerary_ids in
  let missing_in_edreams := kiwi_itinerary_ids ∖ edreams_itinerary_ids in
  cheapest_edreams_price ← cheapest edreams_data;
  cheapest_kiwi_price ← cheapest kiwi_data;
  cheaper_than_edo_cheapest_itineraries ←
    ids_cheaper_than cheapest_edreams_price kiwi_data;
  let cheaper_than_edo_cheapest_count :=
    length cheaper_than_edo_cheapest_itineraries in
  percent_over_kiwi ←
    percent_or_zero cheaper_than_edo_cheapest_count total_unique_kiwi;
  percent_over_edreams ←
    percent_or_zero cheaper_than_edo_cheapest_count (size edreams_itinerary_ids);
  counts ← foldM (compare_step edreams_data unique_kiwi)
                 (set_iter h repeated_itineraries) (0, 0);
  let eDreams_cheaper_count := counts.1 in
  let kiwi_cheaper_count := counts.2 in
  let total_repeated := size repeated_itineraries in
  percent_eDreams_cheaper_repeated ←
    percent_or_zero eDreams_cheaper_count total_repeated;
  percent_kiwi_cheaper_repeated ←
    percent_or_zero kiwi_cheaper_count total_repeated;
  let not_repeated_kiwi := kiwi_itinerary_ids ∖ repeated_itineraries in
  count_cheaper_non_repeated_kiwi ←
    count_cheaper_non_repeated not_repeated_kiwi cheapest_edreams_price unique_kiwi;
  let kiwi_cheaper_total := count_cheaper_non_repeated_kiwi + kiwi_cheaper_count in
  let total_unique_itineraries :=
    (Z.of_nat total_unique_kiwi + Z.of_nat (size edreams_itinerary_ids)
     - Z.of_nat (size repeated_itineraries))%Z in
  percent_kiwi_cheaper_overall ←
    truediv (100 * Z.of_nat kiwi_cheaper_total) total_unique_itineraries;
  let kiwi_locations := locations unique_kiwi in
  let edo_locations := locations edreams_data in
  let missing_locations := kiwi_locations ∖ edo_locations in
  hub_breakdown ← foldM
    (λ rows hub,
       row ← hub_row cheaper_than_edo_cheapest_itineraries unique_kiwi hub;
       Ok (rows ++ [row]))
    (set_iter h missing_locations) [];
  let missing_cheaper_hubs_count :=
    length (filter (λ row, 0 < Cheaper_Usage row) hub_breakdown) in
  let missing_content := size missing_in_edreams in
  missing_content_pct ← percent_or_zero missing_content total_unique_kiwi;
  repeated_percent_kiwi ← percent_or_zero total_repeated total_unique_kiwi;
  repeated_percent_edreams ←
    percent_or_zero total_repeated (size edreams_itinerary_ids);
  kiwi_missing_flights ← flights_of_missing missing_in_edreams unique_kiwi;
  let edreams_flights := flights_of edreams_data in
  let missing_flights := kiwi_missing_flights ∖ edreams_flights in
  constructible_count ←
    count_constructible missing_in_edreams edreams_flights unique_kiwi;
  constructible_pct ← percent_or_zero constructible_count (size missing_in_edreams);
  cheap_kiwi_itins ← itins_cheaper_than cheapest_edreams_price unique_kiwi;
  let constructible_cheap_count :=
    length (filter (λ itin, constructible itin edreams_flights = true)
                   cheap_kiwi_itins) in
  constructible_cheap_pct ←
    percent_or_zero constructible_cheap_count (length cheap_kiwi_itins);
  relisted ← dict_by_id kiwi_data;
  let unique_kiwi := od_values relisted in
  let total_unique_kiwi := length unique_kiwi in
  let all_hub_dist := hub_distribution unique_kiwi in
  formatted_all_hub_dist ← format_distribution all_hub_dist total_unique_kiwi;
  relisted_cheap ← dict_by_id_cheaper_than cheapest_edreams_price kiwi_data;
  let unique_cheap := od_values relisted_cheap in
  let total_unique_cheap := length unique_cheap in
  let cheap_hub_dist := hub_distribution unique_cheap in
  formatted_cheap_hub_dist ← format_distribution cheap_hub_dist total_unique_cheap;
  Ok {| Total_Kiwi := total_unique_kiwi;
        Total_eDreams := size edreams_itinerary_ids;
        Repeated := total_repeated;
        Repeated_pct_Kiwi := repeated_percent_kiwi;
        Repeated_pct_eDO := repeated_percent_edreams;
        Missing_Content := (missing_content, missing_content_pct);
        Cheapest_eDreams := cheapest_edreams_price;
        Cheapest_Kiwi := cheapest_kiwi_price;
        Kiwi_cheaper := (kiwi_cheaper_count, percent_kiwi_cheaper_repeated);
        eDreams_cheaper := (eDreams_cheaper_count, percent_eDreams_cheaper_repeated);
        Overall_pct_Kiwi_cheaper := percent_kiwi_cheaper_overall;
        Kiwi_cheaper_than_eDO_cheapest :=
          (cheaper_than_edo_cheapest_count, percent_over_kiwi, percent_over_edreams);
        Missing_Hub_Cities := missing_locations;
        Missing_Cheaper_Hubs_Count := missing_cheaper_hubs_count;
        Missing_Flights := missing_flights;
        Constructible := (constructible_count, constructible_pct);
        Constructible_among_Cheap :=
          (constructible_cheap_count, constructible_cheap_pct);
        Hub_Breakdown := hub_breakdown;
        Hubs_Distribution_All := formatted_all_hub_dist;
        Hubs_Distribution_Cheap := formatted_cheap_hub_dist |}.

End analyze.

End Analysis.

(** ** Concrete runtime used to run the model on examples *)

Module Run.

Definition digit_of (c : ascii) : option Z :=
  let n := nat_of_ascii c in
  if (48 <=? n) && (n <=? 57) then Some (Z.of_nat (n - 48)) else None.

Fixpoint scan (s : string) (num : Z) (den : positive)
    (after_dot seen_digit : bool) : option Q :=
  match s with
  | EmptyString => if seen_digit then Some (num # den) else None
  | String c rest =>
      if Ascii.eqb c "." then
        if after_dot then None else scan rest num den true seen_digit
      else
        match digit_of c with
        | Some d =>
            scan rest (10 * num + d)%Z (if after_dot then (10 * den)%positive else den)
                 after_dot true
        | None => None
        end
  end.

(** The plain decimal literals among the strings [float] accepts
    (["153"], ["89.99"], ["-3.5"]); every other string is rejected here. *)
Definition float_of_decimal (s : string) : option pyfloat :=
  match s with
  | String "-" rest => (λ q, FFin (- q)%Q) <$> scan rest 0 1 false false
  | _ => FFin <$> scan s 0 1 false false
  end.

(** Two iteration orders for sets of strings. *)
Definition ascending : hash_order :=
  {| set_iter := elements; set_iter_perm := λ s, reflexivity (elements s) |}.

Definition descending : hash_order :=
  {| set_iter := λ s, reverse (elements s);
     set_iter_perm := λ s, reverse_Permutation (elements s) |}.

End Run.

Import Analysis.

(** ** The analysis on well-formed input

    When every record has an ["id"] and a ["price"] that [float] accepts, no
    lookup raises, and each stage of [analyze_journey] is a plain function of
    the coerced records.  These are the values the properties below are
    stated about; [analyze_journey_ok] shows that the code computes them. *)

Section reading.

Variable float_of_str : string → option pyfloat.

(** A record on which neither [it["id"]] nor [float(it["price"])] raises. *)
Definition valid (it : itinerary) : bool :=
  is_ok (get_id it) && is_ok (get_price float_of_str it).

(** Its identity and its coerced price. *)
Definition rid (it : itinerary) : string := default "" (itin_id it).

Definition rprice (it : itinerary) : pyfloat :=
  match get_price float_of_str it with
  | Ok f => f
  | Raise _ => FNaN
  end.

(** The running minimum kept by [min]. *)
Definition keep_lower (m y : pyfloat) : pyfloat :=
  if float_lt y m then y else m.

Definition lowest (prices : list pyfloat) : pyfloat :=
  match prices with
  | [] => FNaN
  | x :: t => fold_left keep_lower t x
  end.

Definition dedup_pure_step (d : list (string * itinerary)) (it : itinerary)
  : list (string * itinerary) :=
  match od_get d (rid it) with
  | None => od_set d (rid it) it
  | Some kept =>
      if float_lt (rprice it) (rprice kept) then od_set d (rid it) it else d
  end.

Definition dedup_pure (kiwi_data : list itinerary) : list (string * itinerary) :=
  fold_left dedup_pure_step kiwi_data [].

Definition ids (data : list itinerary) : gset string :=
  list_to_set (map rid data).

Definition cheaper_than (bound : pyfloat) (it : itinerary) : bool :=
  float_lt (rprice it) bound.

(** The price of the first record of [data] with the identity. *)
Definition listed_price (data : list itinerary) (itinerary_id : string)
  : pyfloat :=
  match List.find (λ entry, String.eqb (rid entry) itinerary_id) data with
  | Some entry => rprice entry
  | None => FNaN
  end.

Definition compare_pure_step (edreams_data unique_kiwi : list itinerary)
    (counts : nat * nat) (itinerary_id : string) : nat * nat :=
  let edreams_price := listed_price edreams_data itinerary_id in
  let kiwi_price := listed_price unique_kiwi itinerary_id in
  if float_lt edreams_price kiwi_price then (S counts.1, counts.2)
  else if float_lt kiwi_price edreams_price then (counts.1, S counts.2)
  else counts.

Definition pct (a b : nat) : Q :=
  if Nat.eqb b 0 then 0%Q
  else (inject_Z (100 * Z.of_nat a) / inject_Z (Z.of_nat b))%Q.

Definition hub_row_pure (cheaper_ids : list string) (unique_kiwi : list itinerary)
    (hub : string) : hub_info :=
  let counts :=
    fold_left
      (λ (counts : nat * nat) itin,
         if uses_hub itin hub then
           (S counts.1,
            if bool_decide (rid itin ∈ cheaper_ids) then S counts.2 else counts.2)
         else counts)
      unique_kiwi (0, 0) in
  HubInfo hub counts.1 counts.2.

Definition format_pure (dist : gmap Z nat) (total : nat) : list (Z * nat * Q) :=
  map (λ kv : Z * nat,
         (kv.1, kv.2,
          (inject_Z (100 * Z.of_nat kv.2) / inject_Z (Z.of_nat total))%Q))
      (merge_sort item_le (map_to_list dist)).

(** [{it["id"]: it for it in data}] on well-formed records. *)
Definition relist (data : list itinerary) : list (string * itinerary) :=
  fold_left (λ d it, od_set d (rid it) it) data [].

Definition analyze_pure (h : hash_order) (kiwi_data edreams_data : list itinerary)
  : report :=
  let unique_kiwi := od_values (dedup_pure kiwi_data) in
  let total_unique_kiwi := length unique_kiwi in
  let kiwi_itinerary_ids := ids unique_kiwi in
  let edreams_itinerary_ids := ids edreams_data in
  let repeated_itineraries := kiwi_itinerary_ids ∩ edreams_itinerary_ids in
  let missing_in_edreams := kiwi_itinerary_ids ∖ edreams_itinerary_ids in
  let cheapest_edreams_price := lowest (map rprice edreams_data) in
  let cheapest_kiwi_price := lowest (map rprice kiwi_data) in
  let cheaper_than_edo_cheapest_itineraries :=
    map rid (List.filter (cheaper_than cheapest_edreams_price) kiwi_data) in
  let cheaper_than_edo_cheapest_count :=
    length cheaper_than_edo_cheapest_itineraries in
  let counts :=
    fold_left (compare_pure_step edreams_data unique_kiwi)
              (set_iter h repeated_itineraries) (0, 0) in
  let total_repeated := size repeated_itineraries in
  let not_repeated_kiwi := kiwi_itinerary_ids ∖ repeated_itineraries in
  let count_cheaper_non_repeated_kiwi :=
    length (List.filter
              (λ entry, bool_decide (rid entry ∈ not_repeated_kiwi)
                        && cheaper_than cheapest_edreams_price entry)
              unique_kiwi) in
  let kiwi_cheaper_total := count_cheaper_non_repeated_kiwi + counts.2 in
  let total_unique_itineraries :=
    (Z.of_nat total_unique_kiwi + Z.of_nat (size edreams_itinerary_ids)
     - Z.of_nat (size repeated_itineraries))%Z in
  let missing_locations := locations unique_kiwi ∖ locations edreams_data in
  let hub_breakdown :=
    map (hub_row_pure cheaper_than_edo_cheapest_itineraries unique_kiwi)
        (set_iter h missing_locations) in
  let edreams_flights := flights_of edreams_data in
  let kiwi_missing_flights :=
    flights_of (List.filter (λ itin, bool_decide (rid itin ∈ missing_in_edreams))
                            unique_kiwi) in
  let constructible_count :=
    length (List.filter
              (λ itin, bool_decide (rid itin ∈ missing_in_edreams)
                       && constructible itin edreams_flights)
              unique_kiwi) in
  let cheap_kiwi_itins :=
    List.filter (cheaper_than cheapest_edreams_price) unique_kiwi in
  let constructible_cheap_count :=
    length (filter (λ itin, constructible itin edreams_flights = true)
                   cheap_kiwi_itins) in
  let relisted_kiwi := od_values (relist kiwi_data) in
  let relisted_cheap :=
    od_values (relist (List.filter (cheaper_than cheapest_edreams_price) kiwi_data)) in
  {| Total_Kiwi := length relisted_kiwi;
     Total_eDreams := size edreams_itinerary_ids;
     Repeated := total_repeated;
     Repeated_pct_Kiwi := pct total_repeated total_unique_kiwi;
     Repeated_pct_eDO := pct total_repeated (size edreams_itinerary_ids);
     Missing_Content :=
       (size missing_in_edreams, pct (size missing_in_edreams) total_unique_kiwi);
     Cheapest_eDreams := cheapest_edreams_price;
     Cheapest_Kiwi := cheapest_kiwi_price;
     Kiwi_cheaper := (counts.2, pct counts.2 total_repeated);
     eDreams_cheaper := (counts.1, pct counts.1 total_repeated);
     Overall_pct_Kiwi_cheaper :=
       (inject_Z (100 * Z.of_nat kiwi_cheaper_total)
        / inject_Z total_unique_itineraries)%Q;
     Kiwi_cheaper_than_eDO_cheapest :=
       (cheaper_than_edo_cheapest_count,
        pct cheaper_than_edo_cheapest_count total_unique_kiwi,
        pct cheaper_than_edo_cheapest_count (size edreams_itinerary_ids));
     Missing_Hub_Cities := missing_locations;
     Missing_Cheaper_Hubs_Count :=
       length (filter (λ row, 0 < Cheaper_Usage row) hub_breakdown);
     Missing_Flights := kiwi_missing_flights ∖ edreams_flights;
     Constructible :=
       (constructible_count, pct constructible_count (size missing_in_edreams));
     Constructible_among_Cheap :=
       (constructible_cheap_count,
        pct constructible_cheap_count (length cheap_kiwi_itins));
     Hub_Breakdown := hub_breakdown;
     Hubs_Distribution_All :=
       format_pure (hub_distribution relisted_kiwi) (length relisted_kiwi);
     Hubs_Distribution_Cheap :=
       format_pure (hub_distribution relisted_cheap) (length relisted_cheap) |}.

(** Every record held by a dictionary is well formed. *)
Definition all_valid (d : list (string * itinerary)) : Prop :=
  ∀ v, v ∈ od_values d → valid v = true.

Definition is_nan (f : pyfloat) : bool :=
  match f with FNaN => true | _ => false end.

(** A well-formed record whose price is a number. *)
Definition numeric (it : itinerary) : bool :=
  valid it && negb (is_nan (rprice it)).

(** Where the retained record of an identity stands in the input: it is
    strictly cheaper than every earlier record of the identity, and no later
    record of the identity is cheaper than it. *)
Definition first_lowest (l : list itinerary) (k : string) (kept : itinerary)
  : Prop :=
  ∃ n, l !! n = Some kept ∧ rid kept = k
    ∧ (∀ j x, l !! j = Some x → rid x = k → j < n →
         float_lt (rprice kept) (rprice x) = true)
    ∧ (∀ j x, l !! j = Some x → rid x = k → n < j →
         float_lt (rprice x) (rprice kept) = false).

End reading.

(** ** The quantities the specification names

    Definitions written from the words of the specification, to be compared
    with what [analyze_journey] computes. *)

Section specification.

Variable float_of_str : string → option pyfloat.

(** The price at which a source's collection holds an identity: the lowest
    price among the source's records with that identity. *)
Definition lowest_price (data : list itinerary) (itinerary_id : string) : pyfloat :=
  lowest (map (rprice float_of_str)
              (List.filter (λ it, String.eqb (rid it) itinerary_id) data)).

(** The number of identities of a set that have a property. *)
Definition count_ids (p : string → bool) (s : gset string) : nat :=
  length (List.filter p (elements s)).

(** Non-repeated A itineraries priced below B's global minimum. *)
Definition spec_non_repeated_below_minimum (A B : list itinerary) : nat :=
  count_ids
    (λ i, float_lt (lowest_price A i) (lowest (map (rprice float_of_str) B)))
    (ids A ∖ ids B).

(** Repeated itineraries where A is cheaper. *)
Definition spec_repeated_cheaper_in_A (A B : list itinerary) : nat :=
  count_ids
    (λ i, float_lt (lowest_price A i) (listed_price float_of_str B i))
    (ids A ∩ ids B).

(** Unique A identities + unique B identities − repeated identities. *)
Definition spec_unique_itineraries (A B : list itinerary) : Z :=
  (Z.of_nat (size (ids A)) + Z.of_nat (size (ids B))
   - Z.of_nat (size (ids A ∩ ids B)))%Z.

Definition spec_overall_cheaper_fraction (A B : list itinerary) : Q :=
  (inject_Z (Z.of_nat (spec_non_repeated_below_minimum A B
                       + spec_repeated_cheaper_in_A A B))
   / inject_Z (spec_unique_itineraries A B))%Q.

(** A segment that names a flight, and the string that names it. *)
Definition has_flight (seg : segment) : bool :=
  truthy (carrierCode seg) && truthy (flightCode seg).

Definition flight_string (seg : segment) : string :=
  default "" (carrierCode seg) +:+ default "" (flightCode seg).

(** The flight strings of an itinerary, in segment order, and those of a
    collection. *)
Definition flight_strings (itin : itinerary) : list string :=
  map flight_string (List.filter has_flight (all_segments itin)).

Definition flight_universe (B : list itinerary) : list string :=
  concat (map flight_strings B).

(** Every flight string of the itinerary appears somewhere in B. *)
Definition every_flight_offered (itin : itinerary) (B : list itinerary) : bool :=
  forallb (λ f, bool_decide (f ∈ flight_universe B)) (flight_strings itin).

(** The itinerary names at least one flight. *)
Definition names_a_flight (itin : itinerary) : bool :=
  existsb has_flight (all_segments itin).

End specification.

(** ** Sample records *)

Module Examples.

Definition seg (src dst carrier flight : string) : segment :=
  {| sourceStationId := Some src; destinationStationId := Some dst;
     departureLocalTime := None; arrivalLocalTime := None;
     flightCode := Some flight; carrierCode := Some carrier |}.

Definition edreams_direct : itinerary :=
  Itinerary (Some "s1-c1-BA-7") (Some (JNumber (FFin 100)))
            [seg "MAD" "JFK" "BA" "7"] [].

Definition kiwi_direct : itinerary :=
  Itinerary (Some "s1-c1-BA-7") (Some (JNumber (FFin 90)))
            [seg "MAD" "JFK" "BA" "7"] [].

Definition kiwi_via_lisbon : itinerary :=
  Itinerary (Some "s2-c1-AA-1-AA-2") (Some (JNumber (FFin 50)))
            [seg "MAD" "LIS" "AA" "1"; seg "LIS" "JFK" "AA" "2"] [].

Definition kiwi_via_porto : itinerary :=
  Itinerary (Some "s2-c1-AA-1-AA-2") (Some (JString "60.5"))
            [seg "MAD" "OPO" "AA" "1"] [seg "OPO" "JFK" "AA" "2"].

Definition kiwi_two_hubs : itinerary :=
  Itinerary (Some "s3-c1-AA-1-AA-3-AA-4") (Some (JNumber (FFin 80)))
            [seg "MAD" "LIS" "AA" "1"; seg "LIS" "OPO" "AA" "3";
             seg "OPO" "JFK" "AA" "4"] [].

Definition kiwi_no_price : itinerary :=
  Itinerary (Some "s1-c1-IB-9") None [seg "MAD" "JFK" "IB" "9"] [].

Definition kiwi_no_id : itinerary :=
  Itinerary None (Some (JNumber (FFin 70))) [seg "MAD" "JFK" "IB" "9"] [].

Definition kiwi_bad_price : itinerary :=
  Itinerary (Some "s1-c1-IB-9") (Some (JString "n/a")) [seg "MAD" "JFK" "IB" "9"] [].

Definition kiwi_infinite_price : itinerary :=
  Itinerary (Some "s1-c1-IB-9") (Some (JNumber FPosInf)) [seg "MAD" "JFK" "IB" "9"] [].

Definition kiwi_nine : itinerary :=
  Itinerary (Some "s1-c1-IB-9") (Some (JString "9")) [seg "MAD" "JFK" "IB" "9"] [].

Definition kiwi_ten : itinerary :=
  Itinerary (Some "s1-c1-IB-9") (Some (JString "10")) [seg "MAD" "JFK" "IB" "9"] [].

End Examples.

(** ** Auxiliary notions for the properties *)


(** The sum of the frequencies of a distribution. *)
Definition frequencies (dist : gmap Z nat) : nat :=
  sum_list (map snd (map_to_list dist)).


(** A percentage between 0 and 100. *)
Definition is_percentage (q : Q) : Prop := (0 <= q)%Q ∧ (q <= 100)%Q.


(** [entry.get("id") == k] *)
Definition has_id (k : string) (it : itinerary) : bool :=
  bool_decide (itin_id it = Some k).

(** ** mapper-kiwi.py, [simplify_kiwi_json] *)

Module SimplifyKiwi.
Import MapperKiwi.

(** One element of [sectorSegments]: its ["segment"], with the local times
    of [segment.source] and [segment.destination]. *)
Record kiwi_sector := KiwiSector {
  sector_segment : kiwi_segment;
  source_localTime : option string;
  destination_localTime : option string
}.

(** One element of [data.returnItineraries.itineraries]; [priceEur_amount]
    is [itinerary.get("priceEur", {}).get("amount")]. *)
Record kiwi_raw_itinerary := KiwiRaw {
  raw_outbound : list kiwi_sector;
  raw_inbound : list kiwi_sector;
  priceEur_amount : option jvalue
}.

(** The part of the raw itinerary that [generate_itinerary_id] reads. *)
Definition sectors_of (itinerary : kiwi_raw_itinerary) : kiwi_itinerary :=
  KiwiItinerary (map sector_segment (raw_outbound itinerary))
                (map sector_segment (raw_inbound itinerary)).

(** The dictionary appended for one sector. *)
Definition simplify_sector (sector : kiwi_sector) : segment :=
  let segment := sector_segment sector in
  Segment (source_station_code segment) (destination_station_code segment)
          (source_localTime sector) (destination_localTime sector)
          (code segment) (carrier_code segment).

(** The body of the loop over the itineraries: the keys ["id"] and
    ["price"] are always written; a missing amount is written as [null]. *)
Definition simplify_itinerary (raw : kiwi_raw_itinerary) : itinerary :=
  Itinerary (Some (generate_itinerary_id (sectors_of raw)))
            (Some (default JNull (priceEur_amount raw)))
            (map simplify_sector (raw_outbound raw))
            (map simplify_sector (raw_inbound raw)).

Definition simplify_kiwi_json (itineraries : list kiwi_raw_itinerary)
  : list itinerary :=
  map simplify_itinerary itineraries.

End SimplifyKiwi.

(** ** analysis-combined.py, [process_segments] and the loop of
    [simplify_edreams_json] *)

Module SimplifyEdreams.
Import MapperEdreams.

(** The ["carrier"] of a segment of the legend: a number or a string. *)
Inductive jcarrier :=
| CarrierNumber (n : Z)
| CarrierString (s : string).

Definition carrier_truthy (c : option jcarrier) : bool :=
  match c with
  | Some (CarrierNumber n) => negb (Z.eqb n 0)
  | Some (CarrierString s) => negb (String.eqb s "")
  | None => false
  end.

(** [str(carrier)] *)
Definition carrier_str (c : jcarrier) : string :=
  match c with
  | CarrierNumber n => NilEmpty.string_of_int (Z.to_int n)
  | CarrierString s => s
  end.

(** [sec_obj["section"]]; an absent key is [None]. *)
Record edo_section := EdoSection {
  section_from : option Z;
  section_to : option Z;
  departureDate : option string;
  arrivalDate : option string;
  section_flightCode : option string
}.

(** [{}], the section read when the id is not in [section_map]. *)
Definition no_section : edo_section := EdoSection None None None None None.

(** [seg_obj["segment"]], as far as it is read. *)
Record edo_raw_segment := EdoRawSegment {
  segment_sections : list Z;
  segment_carrier : option jcarrier
}.

(** [s[:2]] *)
Definition take2 (s : string) : string := String.substring 0 2 s.

(** [location_map.get(geo, "")] *)
Definition iata (location_map : gmap Z string) (geo : option Z) : string :=
  match geo with
  | Some g => default "" (location_map !! g)
  | None => ""
  end.

(** The dictionary appended for one section of a segment. *)
Definition process_section (seg_obj : edo_raw_segment) (location_map : gmap Z string)
    (sec : edo_section) : edo_segment :=
  let flight_code := default "" (section_flightCode sec) in
  let carrier_code := if String.eqb flight_code "" then "" else take2 flight_code in
  let carrier_code :=
    if String.eqb carrier_code "" && carrier_truthy (segment_carrier seg_obj)
    then match segment_carrier seg_obj with
         | Some c => carrier_str c
         | None => carrier_code
         end
    else carrier_code in
  {| sourceStationId := iata location_map (section_from sec);
     destinationStationId := iata location_map (section_to sec);
     departureLocalTime := default "" (departureDate sec);
     arrivalLocalTime := default "" (arrivalDate sec);
     flightCode := flight_code;
     carrierCode := carrier_code |}.

Definition process_segments (segment_ids : list Z)
    (segment_map : gmap Z edo_raw_segment) (section_map : gmap Z edo_section)
    (location_map : gmap Z string) : list edo_segment :=
  fold_left
    (λ processed seg_id,
       match segment_map !! seg_id with
       | None => processed
       | Some seg_obj =>
           fold_left
             (λ processed section_id,
                let sec := default no_section (section_map !! section_id) in
                processed ++ [process_section seg_obj location_map sec])
             (segment_sections seg_obj) processed
       end)
    segment_ids [].

(** The dictionaries that [process_segments] appends for one segment id. *)
Definition sections_of_segment (segment_map : gmap Z edo_raw_segment)
    (section_map : gmap Z edo_section) (location_map : gmap Z string)
    (seg_id : Z) : list edo_segment :=
  match segment_map !! seg_id with
  | None => []
  | Some seg_obj =>
      map (λ section_id,
             process_section seg_obj location_map
               (default no_section (section_map !! section_id)))
          (segment_sections seg_obj)
  end.

(** Lines 106-111. *)
Definition count_sections (segment_map : gmap Z edo_raw_segment)
    (raw_segment_ids : list Z) : nat :=
  fold_left
    (λ section_count seg_id,
       match segment_map !! seg_id with
       | Some seg_obj => section_count + length (segment_sections seg_obj)
       | None => section_count
       end)
    raw_segment_ids 0.

(** Lines 102-117 of the loop over the itineraries: the identity and the
    two legs of the simplified record.  The price (lines 119-123) is a sum
    of floats and is left out. *)
Definition simplify_route (segment_map : gmap Z edo_raw_segment)
    (section_map : gmap Z edo_section) (location_map : gmap Z string)
    (firstSegments secondSegments : list Z)
  : string * list edo_segment * list edo_segment :=
  let outbound_ids := firstSegments in
  let inbound_ids := secondSegments in
  let raw_segment_ids := outbound_ids ++ inbound_ids in
  let section_count := count_sections segment_map raw_segment_ids in
  let outbound_segments :=
    process_segments outbound_ids segment_map section_map location_map in
  let inbound_segments :=
    process_segments inbound_ids segment_map section_map location_map in
  let all_segments := outbound_segments ++ inbound_segments in
  (generate_edreams_itinerary_id all_segments section_count,
   outbound_segments, inbound_segments).

(** A processed segment as the analysis reads it back from
    [edreams-simplified.json]: every key is present, with a string. *)
Definition as_record (seg : edo_segment) : segment :=
  Segment (Some (sourceStationId seg)) (Some (destinationStationId seg))
          (Some (departureLocalTime seg)) (Some (arrivalLocalTime seg))
          (Some (flightCode seg)) (Some (carrierCode seg)).

End SimplifyEdreams.

(** ** analysis-combined.py and analysis2.py, [extract_segments_and_carriers] *)

Module Extract.

Definition digit_of_ascii (c : ascii)
  : option (Decimal.uint → Decimal.uint) :=
  if Ascii.eqb c "0" then Some Decimal.D0
  else if Ascii.eqb c "1" then Some Decimal.D1
  else if Ascii.eqb c "2" then Some Decimal.D2
  else if Ascii.eqb c "3" then Some Decimal.D3
  else if Ascii.eqb c "4" then Some Decimal.D4
  else if Ascii.eqb c "5" then Some Decimal.D5
  else if Ascii.eqb c "6" then Some Decimal.D6
  else if Ascii.eqb c "7" then Some Decimal.D7
  else if Ascii.eqb c "8" then Some Decimal.D8
  else if Ascii.eqb c "9" then Some Decimal.D9
  else None.

(** The longest prefix of decimal digits, as [\d+] takes it on an ASCII
    string, and what follows it. *)
Fixpoint digits_prefix (s : string) : Decimal.uint * string :=
  match s with
  | EmptyString => (Decimal.Nil, EmptyString)
  | String c rest =>
      match digit_of_ascii c with
      | Some d => let '(u, r) := digits_prefix rest in (d u, r)
      | None => (Decimal.Nil, s)
      end
  end.

(** What follows a run of digits does not start with a digit. *)
Definition no_leading_digit (s : string) : Prop :=
  match s with
  | EmptyString => True
  | String c _ => digit_of_ascii c = None
  end.

(** [re.match(r's(\d+)-c(\d+)', itinerary_id)] followed by [int] of the two
    groups; [None] stands for the pair [(None, None)]. *)
Definition extract_segments_and_carriers (itinerary_id : string)
  : option (nat * nat) :=
  match itinerary_id with
  | String c rest =>
      if Ascii.eqb c "s" then
        match digits_prefix rest with
        | (Decimal.Nil, _) => None
        | (segments, String c1 (String c2 rest2)) =>
            if Ascii.eqb c1 "-" && Ascii.eqb c2 "c" then
              match digits_prefix rest2 with
              | (Decimal.Nil, _) => None
              | (carriers, _) => Some (Nat.of_uint segments, Nat.of_uint carriers)
              end
            else None
        | _ => None
        end
      else None
  | EmptyString => None
  end.

End Extract.

(** ** analysis2.py, lines 35-108 *)

Module Analysis2.

(** The values the script prints up to the overall percentage. *)
Record summary := Summary {
  Total_Kiwi_itineraries : nat;
  Total_eDreams_itineraries : nat;
  Repeated_itineraries : nat;
  Missing_in_eDreams : nat;
  Missing_in_Kiwi : nat;
  Cheapest_eDreams_price : pyfloat;
  Cheapest_Kiwi_price : pyfloat;
  Cheaper_Kiwi_itineraries : nat;
  Percent_eDreams_cheaper_repeated : Q;
  Percent_Kiwi_cheaper_repeated : Q;
  Percent_Kiwi_cheaper_overall : Q
}.

(** The script reads the two simplified lists and works on the raw Kiwi
    list: there is no deduplication. *)
Definition run (float_of_str : string → option pyfloat) (h : hash_order)
    (kiwi_data edreams_data : list itinerary) : result summary :=
  kiwi_itinerary_ids ← id_set kiwi_data;
  edreams_itinerary_ids ← id_set edreams_data;
  let repeated_itineraries := kiwi_itinerary_ids ∩ edreams_itinerary_ids in
  let missing_in_edreams := kiwi_itinerary_ids ∖ edreams_itinerary_ids in
  let missing_in_kiwi := edreams_itinerary_ids ∖ kiwi_itinerary_ids in
  cheapest_edreams_price ← cheapest float_of_str edreams_data;
  cheapest_kiwi_price ← cheapest float_of_str kiwi_data;
  cheaper_kiwi_itineraries ←
    ids_cheaper_than float_of_str cheapest_edreams_price kiwi_data;
  counts ← foldM (compare_step float_of_str edreams_data kiwi_data)
                 (set_iter h repeated_itineraries) (0, 0);
  let eDreams_cheaper_count := counts.1 in
  let kiwi_cheaper_count := counts.2 in
  let total_repeated := size repeated_itineraries in
  percent_eDreams_cheaper_repeated ←
    percent_or_zero eDreams_cheaper_count total_repeated;
  percent_kiwi_cheaper_repeated ←
    percent_or_zero kiwi_cheaper_count total_repeated;
  let not_repeated_kiwi := kiwi_itinerary_ids ∖ repeated_itineraries in
  count_non_repeated_kiwi ←
    count_cheaper_non_repeated float_of_str not_repeated_kiwi
                               cheapest_edreams_price kiwi_data;
  let numerator := count_non_repeated_kiwi + kiwi_cheaper_count in
  let total_itineraries :=
    (Z.of_nat (length kiwi_data) + Z.of_nat (length edreams_data))%Z in
  percent_kiwi_cheaper_overall ←
    truediv (100 * Z.of_nat numerator) total_itineraries;
  Ok {| Total_Kiwi_itineraries := size kiwi_itinerary_ids;
        Total_eDreams_itineraries := size edreams_itinerary_ids;
        Repeated_itineraries := size repeated_itineraries;
        Missing_in_eDreams := size missing_in_edreams;
        Missing_in_Kiwi := size missing_in_kiwi;
        Cheapest_eDreams_price := cheapest_edreams_price;
        Cheapest_Kiwi_price := cheapest_kiwi_price;
        Cheaper_Kiwi_itineraries := length cheaper_kiwi_itineraries;
        Percent_eDreams_cheaper_repeated := percent_eDreams_cheaper_repeated;
        Percent_Kiwi_cheaper_repeated := percent_kiwi_cheaper_repeated;
        Percent_Kiwi_cheaper_overall := percent_kiwi_cheaper_overall |}.

(** The numerator of the overall percentage, as counts over the raw Kiwi
    list: records whose id is not an eDreams id and whose price is below the
    lowest eDreams price, plus shared ids whose first Kiwi record is cheaper
    than their first eDreams record. *)
Definition raw_numerator (float_of_str : string → option pyfloat)
    (kiwi_data edreams_data : list itinerary) : nat :=
  length (List.filter
            (λ it, negb (bool_decide (rid it ∈ ids edreams_data))
                   && cheaper_than float_of_str
                        (lowest (map (rprice float_of_str) edreams_data)) it)
            kiwi_data)
  + count_ids (λ i, float_lt (listed_price float_of_str kiwi_data i)
                             (listed_price float_of_str edreams_data i))
              (ids kiwi_data ∩ ids edreams_data).

End Analysis2.

(** ** Sample raw documents *)

Module MapperExamples.
Import MapperKiwi SimplifyKiwi SimplifyEdreams.

Definition kiwi_sector_of (src dst carrier number : string) : kiwi_sector :=
  KiwiSector (KiwiSegment (Some src) (Some dst) (Some carrier) (Some number))
             (Some "2025-03-01T10:00:00") (Some "2025-03-01T12:00:00").

Definition raw_kiwi_via_lisbon : kiwi_raw_itinerary :=
  KiwiRaw [kiwi_sector_of "MAD" "LIS" "TP" "1011"; kiwi_sector_of "LIS" "JFK" "TP" "201"]
          [kiwi_sector_of "JFK" "MAD" "IB" "6250"]
          (Some (JString "512.40")).

Definition raw_kiwi_no_price : kiwi_raw_itinerary :=
  KiwiRaw [kiwi_sector_of "MAD" "JFK" "IB" "6251"] [] None.

Definition segment_map : gmap Z edo_raw_segment :=
  {[ 0%Z := EdoRawSegment [10%Z; 11%Z] None;
     1%Z := EdoRawSegment [12%Z] (Some (CarrierNumber 7)) ]}.

Definition section_map : gmap Z edo_section :=
  {[ 10%Z := EdoSection (Some 100%Z) (Some 101%Z) (Some "2025-03-01T10:00:00")
                        (Some "2025-03-01T12:00:00") (Some "TP1011");
     11%Z := EdoSection (Some 101%Z) (Some 102%Z) (Some "2025-03-01T14:00:00")
                        (Some "2025-03-01T17:00:00") (Some "TP201");
     12%Z := EdoSection (Some 102%Z) (Some 100%Z) (Some "2025-03-08T18:00:00")
                        (Some "2025-03-09T08:00:00") (Some "IB6250") ]}.

Definition location_map : gmap Z string :=
  {[ 100%Z := "MAD"; 101%Z := "LIS"; 102%Z := "JFK" ]}.

End MapperExamples.

(** * Properties *)

(** ** The error monad *)

Lemma bind_ok {A B} (a : A) (k : A → result B) : (Ok a ≫= k) = k a.
Proof. reflexivity. Qed.

Lemma foldM_pure {A S} (f : S → A → result S) (g : S → A → S) (l : list A) (s : S) :
  (∀ s x, x ∈ l → f s x = Ok (g s x)) →
  foldM f l s = Ok (fold_left g l s).
Proof.
  revert s. induction l as [|x l IH]; intros s Hf; [done|].
  simpl. rewrite Hf by left. simpl. apply IH.
  intros s' y Hy. apply Hf. by right.
Qed.

Lemma foldM_invariant {A S} (Inv : S → Prop) (f : S → A → result S)
    (g : S → A → S) (l : list A) (s : S) :
  Inv s →
  (∀ s x, x ∈ l → Inv s → f s x = Ok (g s x) ∧ Inv (g s x)) →
  foldM f l s = Ok (fold_left g l s) ∧ Inv (fold_left g l s).
Proof.
  revert s. induction l as [|x l IH]; intros s Hs Hf; [done|].
  destruct (Hf s x) as [Hx Hinv]; [by left | done |].
  simpl. rewrite Hx. simpl. apply IH; [done|].
  intros s' y Hy. apply Hf. by right.
Qed.

Lemma comprehension_pure {A B} (f : A → result (option B)) (g : A → option B)
    (l : list A) :
  (∀ x, x ∈ l → f x = Ok (g x)) →
  comprehension f l = Ok (omap g l).
Proof.
  induction l as [|x l IH]; intros Hf; [done|].
  simpl. rewrite Hf by left. simpl. rewrite IH.
  - simpl. by destruct (g x).
  - intros y Hy. apply Hf. by right.
Qed.

(** A loop that meets an element on which its body raises, whatever the
    state, raises. *)
Lemma foldM_raises {A S} (f : S → A → result S) (l : list A) (x : A) (s : S) :
  x ∈ l → (∀ s, is_ok (f s x) = false) → is_ok (foldM f l s) = false.
Proof.
  intros Hx Hbad. revert s. induction l as [|y l IH]; intros s.
  - by apply elem_of_nil in Hx.
  - simpl. apply elem_of_cons in Hx as [->|Hx].
    + specialize (Hbad s). by destruct (f s y).
    + destruct (f s y); [by apply IH | done].
Qed.

Lemma omap_filter_map {A B} (p : A → bool) (g : A → B) (l : list A) :
  omap (λ x, if p x then Some (g x) else None) l = map g (List.filter p l).
Proof.
  induction l as [|x l IH]; [done|]. csimpl.
  destruct (p x); csimpl; by rewrite IH.
Qed.

Lemma omap_Some_map {A B} (g : A → B) (l : list A) :
  omap (λ x, Some (g x)) l = map g l.
Proof. induction l as [|x l IH]; [done|]. csimpl. by rewrite IH. Qed.

(** ** Ordered dictionaries *)

Section odict_facts.
Context {V : Type}.
Implicit Types (d : list (string * V)) (k : string) (v : V).

Lemma od_get_set_eq d k v : od_get (od_set d k v) k = Some v.
Proof.
  induction d as [|[k' v'] d IH]; simpl.
  - by rewrite String.eqb_refl.
  - destruct (String.eqb k' k) eqn:E; simpl; rewrite E; done.
Qed.

Lemma od_get_set_ne d k k' v : k ≠ k' → od_get (od_set d k v) k' = od_get d k'.
Proof.
  intros Hne. induction d as [|[k0 v0] d IH]; simpl.
  - by apply String.eqb_neq in Hne as ->.
  - destruct (String.eqb k0 k) eqn:E; simpl.
    + apply String.eqb_eq in E as ->.
      by apply String.eqb_neq in Hne as ->.
    + by rewrite IH.
Qed.

Lemma od_get_Some_keys d k : is_Some (od_get d k) ↔ k ∈ od_keys d.
Proof.
  induction d as [|[k' v'] d IH]; simpl.
  - split; [by intros [? ?] | by intros ?%elem_of_nil].
  - rewrite elem_of_cons. destruct (String.eqb k' k) eqn:E.
    + apply String.eqb_eq in E as ->. split; [by left | by eauto].
    + apply String.eqb_neq in E. rewrite IH. naive_solver.
Qed.

Lemma od_get_elem_of d k v : od_get d k = Some v → (k, v) ∈ d.
Proof.
  induction d as [|[k' v'] d IH]; simpl; [done|].
  destruct (String.eqb k' k) eqn:E.
  - apply String.eqb_eq in E as ->. intros [= ->]. by left.
  - intros H. right. by apply IH.
Qed.

Lemma od_elem_of_get d k v : NoDup (od_keys d) → (k, v) ∈ d → od_get d k = Some v.
Proof.
  induction d as [|[k' v'] d IH]; simpl; intros Hnd Hin.
  - by apply elem_of_nil in Hin.
  - apply NoDup_cons in Hnd as [Hk' Hnd].
    apply elem_of_cons in Hin as [[= -> ->]|Hin].
    + by rewrite String.eqb_refl.
    + destruct (String.eqb k' k) eqn:E; [|by apply IH].
      apply String.eqb_eq in E as ->. exfalso. apply Hk'.
      apply list_elem_of_fmap. by exists (k, v).
Qed.

Lemma od_keys_set d k v :
  od_keys (od_set d k v)
  = if bool_decide (k ∈ od_keys d) then od_keys d else od_keys d ++ [k].
Proof.
  induction d as [|[k' v'] d IH]; simpl; [done|].
  destruct (String.eqb k' k) eqn:E; simpl.
  - apply String.eqb_eq in E as ->.
    rewrite bool_decide_eq_true_2; [done | by left].
  - apply String.eqb_neq in E. rewrite IH.
    destruct (bool_decide (k ∈ od_keys d)) eqn:Hk.
    + apply bool_decide_eq_true in Hk.
      rewrite bool_decide_eq_true_2; [done | by right].
    + apply bool_decide_eq_false in Hk.
      rewrite bool_decide_eq_false_2; [done|].
      rewrite elem_of_cons. naive_solver.
Qed.

Lemma od_keys_set_NoDup d k v : NoDup (od_keys d) → NoDup (od_keys (od_set d k v)).
Proof.
  intros Hnd. rewrite od_keys_set. case_bool_decide as Hk; [done|].
  apply NoDup_app. split; [done|]. split; [|apply NoDup_singleton].
  intros x Hx ->%list_elem_of_singleton. done.
Qed.

Lemma od_values_set d k v x :
  x ∈ od_values (od_set d k v) → x = v ∨ x ∈ od_values d.
Proof.
  induction d as [|[k' v'] d IH]; simpl.
  - intros ->%list_elem_of_singleton. by left.
  - destruct (String.eqb k' k); simpl; rewrite !elem_of_cons; naive_solver.
Qed.

Lemma od_values_get d x : x ∈ od_values d → ∃ k, (k, x) ∈ d.
Proof.
  intros ([k v] & -> & Hin)%list_elem_of_fmap. by exists k.
Qed.
End odict_facts.

(** ** Float comparison *)

Lemma Qltb_lt (a b : Q) : Qltb a b = true ↔ (a < b)%Q.
Proof.
  unfold Qltb. rewrite negb_true_iff. split.
  - intros H. apply Qnot_le_lt. intros Hle.
    apply Qle_bool_iff in Hle. congruence.
  - intros H. destruct (Qle_bool b a) eqn:E; [|done].
    apply Qle_bool_iff in E. exfalso. by apply (Qlt_not_le a b).
Qed.

Lemma Qltb_ge (a b : Q) : Qltb a b = false ↔ (b <= a)%Q.
Proof.
  unfold Qltb. rewrite negb_false_iff. apply Qle_bool_iff.
Qed.

Lemma float_lt_asym (a b : pyfloat) : float_lt a b = true → float_lt b a = false.
Proof.
  destruct a as [x| | |], b as [y| | |]; simpl; try done.
  rewrite Qltb_lt, Qltb_ge. apply Qlt_le_weak.
Qed.

Lemma float_lt_trans (a b c : pyfloat) :
  float_lt a b = true → float_lt b c = true → float_lt a c = true.
Proof.
  destruct a as [x| | |], b as [y| | |], c as [z| | |]; simpl; try done.
  rewrite !Qltb_lt. apply Qlt_trans.
Qed.

(** Below something that a non-NaN float is not below. *)
Lemma float_lt_not_lt_trans (a b c : pyfloat) :
  c ≠ FNaN →
  float_lt a b = true → float_lt c b = false → float_lt a c = true.
Proof.
  intros Hc.
  destruct a as [x| | |], b as [y| | |], c as [z| | |]; simpl; try done.
  rewrite !Qltb_lt, Qltb_ge. apply Qlt_le_trans.
Qed.

Lemma float_not_lt_trans (a b c : pyfloat) :
  b ≠ FNaN →
  float_lt b a = false → float_lt c b = false → c ≠ FNaN → a ≠ FNaN →
  float_lt c a = false.
Proof.
  intros Hb.
  destruct a as [x| | |], b as [y| | |], c as [z| | |]; simpl; try done.
  rewrite !Qltb_ge. intros H1 H2 _ _. by apply Qle_trans with y.
Qed.

(** ** Well-formed records *)

Section valid_facts.
Variable fs : string → option pyfloat.

Lemma valid_get_id it : valid fs it = true → get_id it = Ok (rid it).
Proof.
  unfold valid, rid, get_id. by destruct (itin_id it).
Qed.

Lemma valid_get_price it : valid fs it = true → get_price fs it = Ok (rprice fs it).
Proof.
  unfold valid, rprice. intros [_ H]%andb_true_iff.
  by destruct (get_price fs it).
Qed.

Lemma forallb_valid l it : forallb (valid fs) l = true → it ∈ l → valid fs it = true.
Proof.
  intros H Hin. eapply forallb_forall; [exact H|]. by apply list_elem_of_In.
Qed.

Lemma invalid_dedup_step d it :
  valid fs it = false → is_ok (dedup_step fs d it) = false.
Proof.
  unfold valid, dedup_step. intros H.
  destruct (get_id it); [|done]. simpl in *.
  by destruct (get_price fs it).
Qed.

(** *** Deduplication *)

Lemma dedup_step_ok d it :
  valid fs it = true → all_valid fs d →
  dedup_step fs d it = Ok (dedup_pure_step fs d it)
  ∧ all_valid fs (dedup_pure_step fs d it).
Proof.
  intros Hit Hd. unfold dedup_step, dedup_pure_step.
  rewrite (valid_get_id it), (valid_get_price it) by done. simpl.
  destruct (od_get d (rid it)) as [kept|] eqn:Hget.
  - assert (valid fs kept = true) as Hk.
    { apply Hd. apply od_get_elem_of in Hget.
      apply list_elem_of_fmap. by exists (rid it, kept). }
    rewrite (valid_get_price kept) by done. simpl.
    split; [done|]. destruct (float_lt _ _); [|done].
    intros v [-> | Hv]%od_values_set; auto.
  - split; [done|]. intros v [-> | Hv]%od_values_set; auto.
Qed.

Lemma dedup_ok l :
  forallb (valid fs) l = true →
  dedup fs l = Ok (dedup_pure fs l) ∧ all_valid fs (dedup_pure fs l).
Proof.
  intros Hl. unfold dedup, dedup_pure.
  apply (foldM_invariant (all_valid fs)).
  - by intros v ?%elem_of_nil.
  - intros d x Hx Hd. apply dedup_step_ok; [|done]. by eapply forallb_valid.
Qed.

Lemma dedup_pure_snoc l x :
  dedup_pure fs (l ++ [x]) = dedup_pure_step fs (dedup_pure fs l) x.
Proof. unfold dedup_pure. by rewrite fold_left_app. Qed.

(** Every key is the identity of its record, which comes from the list;
    every identity of the list is a key; no key occurs twice. *)
Lemma dedup_pure_keys l :
  (∀ k v, od_get (dedup_pure fs l) k = Some v → rid v = k ∧ v ∈ l)
  ∧ (∀ it, it ∈ l → is_Some (od_get (dedup_pure fs l) (rid it)))
  ∧ NoDup (od_keys (dedup_pure fs l)).
Proof.
  induction l as [|x l IH] using rev_ind.
  - split; [done|]. split; [by intros it ?%elem_of_nil | constructor].
  - destruct IH as (Ha & Hb & Hc). rewrite dedup_pure_snoc.
    set (d := dedup_pure fs l) in *.
    assert (∀ k v, od_get (od_set d (rid x) x) k = Some v → rid v = k ∧ v ∈ l ++ [x])
      as Hset.
    { intros k v. destruct (decide (rid x = k)) as [<-|Hne].
      - rewrite od_get_set_eq. intros [= <-]. split; [done|].
        apply elem_of_app. right. by left.
      - rewrite od_get_set_ne by done. intros [? ?]%Ha. split; [done|].
        apply elem_of_app. by left. }
    assert (∀ it, it ∈ l ++ [x] → is_Some (od_get (od_set d (rid x) x) (rid it)))
      as Hset'.
    { intros it [Hit | ->%list_elem_of_singleton]%elem_of_app.
      - destruct (decide (rid x = rid it)) as [<-|Hne].
        + rewrite od_get_set_eq. eauto.
        + rewrite od_get_set_ne by done. by apply Hb.
      - rewrite od_get_set_eq. eauto. }
    unfold dedup_pure_step.
    destruct (od_get d (rid x)) as [kept|] eqn:Hget;
      [destruct (float_lt _ _)|].
    + split; [done|]. split; [done|]. by apply od_keys_set_NoDup.
    + split; [|split; [|done]].
      * intros k v [? ?]%Ha. split; [done|]. apply elem_of_app. by left.
      * intros it [Hit | ->%list_elem_of_singleton]%elem_of_app; [by apply Hb|].
        rewrite Hget. eauto.
    + split; [done|]. split; [done|]. by apply od_keys_set_NoDup.
Qed.

End valid_facts.

Section dedup_position.
Variable fs : string → option pyfloat.

Lemma first_lowest_snoc_other l x k kept :
  rid x ≠ k → first_lowest fs l k kept → first_lowest fs (l ++ [x]) k kept.
Proof.
  intros Hne (n & Hn & Hk & Hbefore & Hafter). exists n.
  split; [by apply lookup_app_l_Some|]. split; [done|]. split.
  - intros j y [[? ?]|[-> <-]]%lookup_snoc_Some ? ?; [eauto | done].
  - intros j y [[? ?]|[-> <-]]%lookup_snoc_Some ? ?; [eauto | done].
Qed.

Lemma dedup_pure_first_lowest l :
  (∀ it, it ∈ l → is_nan (rprice fs it) = false) →
  ∀ k kept, od_get (dedup_pure fs l) k = Some kept → first_lowest fs l k kept.
Proof.
  induction l as [|x l IH] using rev_ind; intros Hnan k kept; [done|].
  assert (∀ it, it ∈ l → is_nan (rprice fs it) = false) as Hnan'.
  { intros it Hit. apply Hnan, elem_of_app. by left. }
  specialize (IH Hnan').
  destruct (dedup_pure_keys fs l) as (Ha & Hb & _).
  rewrite dedup_pure_snoc. unfold dedup_pure_step.
  set (d := dedup_pure fs l) in *.
  destruct (decide (rid x = k)) as [<-|Hne].
  - destruct (od_get d (rid x)) as [kept0|] eqn:Hget;
      [destruct (float_lt (rprice fs x) (rprice fs kept0)) eqn:Hlt|].
    + rewrite od_get_set_eq. intros [= <-].
      destruct (IH _ _ Hget) as (n0 & Hn0 & _ & Hbefore & Hafter).
      exists (length l). split; [by apply list_lookup_middle|].
      split; [done|]. split.
      * intros j y [[Hj Hy]|[-> <-]]%lookup_snoc_Some Hid ?; [|lia].
        destruct (Nat.lt_trichotomy j n0) as [Hlt'|[->|Hgt]].
        -- eapply float_lt_trans; [exact Hlt|]. by eapply Hbefore.
        -- congruence.
        -- eapply float_lt_not_lt_trans; [|exact Hlt|by eapply Hafter].
           intros Hy'. assert (is_nan (rprice fs y) = false) as Hn.
           { apply Hnan'. by eapply list_elem_of_lookup_2. }
           by rewrite Hy' in Hn.
      * intros j y [[Hj Hy]|[-> <-]]%lookup_snoc_Some _ ?; lia.
    + rewrite Hget. intros [= <-].
      destruct (IH _ _ Hget) as (n0 & Hn0 & Hk0 & Hbefore & Hafter).
      exists n0. split; [by apply lookup_app_l_Some|]. split; [done|]. split.
      * intros j y [[Hj Hy]|[-> <-]]%lookup_snoc_Some Hid ?; [eauto|].
        apply lookup_lt_Some in Hn0. lia.
      * intros j y [[Hj Hy]|[-> <-]]%lookup_snoc_Some Hid ?; [eauto | done].
    + rewrite od_get_set_eq. intros [= <-].
      exists (length l). split; [by apply list_lookup_middle|].
      split; [done|]. split.
      * intros j y [[Hj Hy]|[-> <-]]%lookup_snoc_Some Hid ?; [|lia].
        destruct (Hb y) as [? Hy']; [by eapply list_elem_of_lookup_2|].
        rewrite Hid in Hy'. congruence.
      * intros j y [[Hj Hy]|[-> <-]]%lookup_snoc_Some _ ?; lia.
  - intros Hk. apply first_lowest_snoc_other; [done|]. apply IH.
    destruct (od_get d (rid x)) as [kept0|];
      [destruct (float_lt _ _)|]; by rewrite ?od_get_set_ne in Hk.
Qed.

End dedup_position.

Section stages.
Variable fs : string → option pyfloat.

Lemma id_set_ok l :
  forallb (valid fs) l = true → id_set l = Ok (ids l).
Proof.
  intros Hl. unfold id_set, ids.
  rewrite (comprehension_pure _ (λ entry, Some (rid entry))).
  - simpl. by rewrite omap_Some_map.
  - intros x Hx. by rewrite (valid_get_id fs) by by eapply forallb_valid.
Qed.

Lemma cheapest_ok l :
  forallb (valid fs) l = true → l ≠ [] →
  cheapest fs l = Ok (lowest (map (rprice fs) l)).
Proof.
  intros Hl Hne. unfold cheapest.
  rewrite (comprehension_pure _ (λ entry, Some (rprice fs entry))).
  - simpl. rewrite omap_Some_map. by destruct l.
  - intros x Hx. by rewrite (valid_get_price fs) by by eapply forallb_valid.
Qed.

Lemma cheapest_nil : cheapest fs [] = Raise ValueError.
Proof. reflexivity. Qed.

Lemma ids_cheaper_than_ok bound l :
  forallb (valid fs) l = true →
  ids_cheaper_than fs bound l
  = Ok (map rid (List.filter (cheaper_than fs bound) l)).
Proof.
  intros Hl. unfold ids_cheaper_than.
  rewrite (comprehension_pure _
             (λ entry, if cheaper_than fs bound entry then Some (rid entry) else None)).
  - by rewrite omap_filter_map.
  - intros x Hx. assert (valid fs x = true) as Hv by by eapply forallb_valid.
    rewrite (valid_get_price fs) by done. simpl. unfold cheaper_than.
    destruct (float_lt _ _); [|done]. by rewrite (valid_get_id fs).
Qed.

Lemma itins_cheaper_than_ok bound l :
  forallb (valid fs) l = true →
  itins_cheaper_than fs bound l = Ok (List.filter (cheaper_than fs bound) l).
Proof.
  intros Hl. unfold itins_cheaper_than.
  rewrite (comprehension_pure _
             (λ itin, if cheaper_than fs bound itin then Some (id itin) else None)).
  - rewrite omap_filter_map. by rewrite map_id.
  - intros x Hx. by rewrite (valid_get_price fs) by by eapply forallb_valid.
Qed.

Lemma percent_or_zero_ok a b : percent_or_zero a b = Ok (pct a b).
Proof.
  unfold percent_or_zero, pct, truediv.
  destruct (Nat.eqb b 0) eqn:E; [done|].
  apply Nat.eqb_neq in E.
  destruct (Z.eqb_spec (Z.of_nat b) 0); [lia | done].
Qed.

Lemma truediv_ok a b : b ≠ 0%Z → truediv a b = Ok (inject_Z a / inject_Z b)%Q.
Proof. intros Hb. unfold truediv. by destruct (Z.eqb_spec b 0). Qed.

Lemma next_price_ok l i :
  forallb (valid fs) l = true → i ∈ ids l →
  next_price fs l i = Ok (listed_price fs l i).
Proof.
  unfold ids, listed_price. induction l as [|x l IH]; intros Hl Hi.
  - by apply elem_of_empty in Hi.
  - apply andb_true_iff in Hl as [Hx Hl]. simpl.
    rewrite (valid_get_id fs) by done. simpl.
    destruct (String.eqb (rid x) i) eqn:E.
    + by apply valid_get_price.
    + apply IH; [done|]. apply String.eqb_neq in E. set_solver.
Qed.

Lemma compare_ok (h : hash_order) edreams_data unique_kiwi (s : gset string) :
  forallb (valid fs) edreams_data = true →
  forallb (valid fs) unique_kiwi = true →
  s ⊆ ids edreams_data → s ⊆ ids unique_kiwi →
  foldM (compare_step fs edreams_data unique_kiwi) (set_iter h s) (0, 0)
  = Ok (fold_left (compare_pure_step fs edreams_data unique_kiwi) (set_iter h s) (0, 0)).
Proof.
  intros He Hk Hse Hsk. apply foldM_pure. intros st i Hi.
  assert (i ∈ s) as His.
  { apply elem_of_elements. by rewrite <- (set_iter_perm h s). }
  unfold compare_step, compare_pure_step.
  rewrite !next_price_ok by auto. done.
Qed.

Lemma count_cheaper_non_repeated_ok nr bound l :
  forallb (valid fs) l = true →
  count_cheaper_non_repeated fs nr bound l
  = Ok (length (List.filter
                  (λ entry, bool_decide (rid entry ∈ nr) && cheaper_than fs bound entry)
                  l)).
Proof.
  intros Hl. unfold count_cheaper_non_repeated.
  rewrite (comprehension_pure _
             (λ entry, if bool_decide (rid entry ∈ nr) && cheaper_than fs bound entry
                       then Some tt else None)).
  - simpl. by rewrite omap_filter_map, length_map.
  - intros x Hx. assert (valid fs x = true) as Hv by by eapply forallb_valid.
    rewrite (valid_get_id fs) by done. simpl.
    destruct (bool_decide _); [|done]. simpl.
    by rewrite (valid_get_price fs) by done.
Qed.

Lemma count_constructible_ok missing flights l :
  forallb (valid fs) l = true →
  count_constructible missing flights l
  = Ok (length (List.filter
                  (λ itin, bool_decide (rid itin ∈ missing) && constructible itin flights)
                  l)).
Proof.
  intros Hl. unfold count_constructible.
  rewrite (comprehension_pure _
             (λ itin, if bool_decide (rid itin ∈ missing) && constructible itin flights
                       then Some tt else None)).
  - simpl. by rewrite omap_filter_map, length_map.
  - intros x Hx. by rewrite (valid_get_id fs) by by eapply forallb_valid.
Qed.

Lemma hub_row_ok cheaper_ids l hub :
  forallb (valid fs) l = true →
  hub_row cheaper_ids l hub = Ok (hub_row_pure cheaper_ids l hub).
Proof.
  intros Hl. unfold hub_row, hub_row_pure.
  erewrite foldM_pure; [done|]. intros st x Hx. simpl.
  destruct (uses_hub x hub); [|done].
  by rewrite (valid_get_id fs) by by eapply forallb_valid.
Qed.

Lemma fold_left_snoc_map {A B} (g : A → B) (l : list A) (acc : list B) :
  fold_left (λ rows x, rows ++ [g x]) l acc = acc ++ map g l.
Proof.
  revert acc. induction l as [|x l IH]; intros acc; simpl.
  - by rewrite app_nil_r.
  - by rewrite IH, <- app_assoc.
Qed.

Lemma hub_breakdown_ok cheaper_ids l (hubs : list string) :
  forallb (valid fs) l = true →
  foldM (λ rows hub, row ← hub_row cheaper_ids l hub; Ok (rows ++ [row])) hubs []
  = Ok (map (hub_row_pure cheaper_ids l) hubs).
Proof.
  intros Hl.
  rewrite (foldM_pure _ (λ rows hub, rows ++ [hub_row_pure cheaper_ids l hub])).
  - by rewrite fold_left_snoc_map.
  - intros rows hub _. by rewrite hub_row_ok.
Qed.

Lemma flights_fold_filter (p : itinerary → bool) l (acc : gset string) :
  fold_left
    (λ flights itin,
       if p itin
       then add_flights (add_flights flights (outbound itin)) (inbound itin)
       else flights) l acc
  = fold_left
      (λ flights itin, add_flights (add_flights flights (outbound itin)) (inbound itin))
      (List.filter p l) acc.
Proof.
  revert acc. induction l as [|x l IH]; intros acc; [done|]. simpl.
  destruct (p x); simpl; apply IH.
Qed.

Lemma flights_of_missing_ok missing l :
  forallb (valid fs) l = true →
  flights_of_missing missing l
  = Ok (flights_of (List.filter (λ itin, bool_decide (rid itin ∈ missing)) l)).
Proof.
  intros Hl. unfold flights_of_missing, flights_of.
  rewrite <- flights_fold_filter. apply foldM_pure.
  intros st x Hx. by rewrite (valid_get_id fs) by by eapply forallb_valid.
Qed.

Lemma dict_by_id_ok l :
  forallb (valid fs) l = true → dict_by_id l = Ok (relist l).
Proof.
  intros Hl. unfold dict_by_id, relist. apply foldM_pure.
  intros st x Hx. by rewrite (valid_get_id fs) by by eapply forallb_valid.
Qed.

Lemma relist_fold_filter (p : itinerary → bool) l (acc : list (string * itinerary)) :
  fold_left (λ d it, if p it then od_set d (rid it) it else d) l acc
  = fold_left (λ d it, od_set d (rid it) it) (List.filter p l) acc.
Proof.
  revert acc. induction l as [|x l IH]; intros acc; [done|]. simpl.
  destruct (p x); simpl; apply IH.
Qed.

Lemma dict_by_id_cheaper_than_ok bound l :
  forallb (valid fs) l = true →
  dict_by_id_cheaper_than fs bound l
  = Ok (relist (List.filter (cheaper_than fs bound) l)).
Proof.
  intros Hl. unfold dict_by_id_cheaper_than, relist.
  rewrite <- relist_fold_filter. apply foldM_pure.
  intros st x Hx. assert (valid fs x = true) as Hv by by eapply forallb_valid.
  rewrite (valid_get_price fs) by done. simpl. unfold cheaper_than.
  destruct (float_lt _ _); [|done]. by rewrite (valid_get_id fs).
Qed.

Lemma format_distribution_ok dist total :
  total ≠ 0 ∨ dist = ∅ →
  format_distribution dist total = Ok (format_pure dist total).
Proof.
  intros Hcase. unfold format_distribution, format_pure.
  destruct Hcase as [Htotal| ->].
  - rewrite (foldM_pure _
               (λ acc kv, acc ++ [(kv.1, kv.2,
                  (inject_Z (100 * Z.of_nat kv.2) / inject_Z (Z.of_nat total))%Q)])).
    + by rewrite (fold_left_snoc_map
                    (λ kv : Z * nat, (kv.1, kv.2,
                       (inject_Z (100 * Z.of_nat kv.2) / inject_Z (Z.of_nat total))%Q))).
    + intros acc kv _. rewrite truediv_ok by lia. done.
  - by rewrite map_to_list_empty.
Qed.

Lemma hub_distribution_total l :
  length l ≠ 0 ∨ hub_distribution l = ∅.
Proof. destruct l; [by right | by left]. Qed.

End stages.

Section analysis_ok.
Variable fs : string → option pyfloat.

Lemma dedup_values_valid l :
  forallb (valid fs) l = true →
  forallb (valid fs) (od_values (dedup_pure fs l)) = true.
Proof.
  intros Hl. apply forallb_forall. intros x Hx%list_elem_of_In.
  by apply (dedup_ok fs l Hl).
Qed.

Lemma dedup_values_nonempty l :
  l ≠ [] → length (od_values (dedup_pure fs l)) ≠ 0.
Proof.
  destruct l as [|x l]; [done|]. intros _.
  destruct (dedup_pure_keys fs (x :: l)) as (_ & Hb & _).
  destruct (Hb x) as [v Hv]; [by left|].
  apply od_get_elem_of in Hv. unfold od_values. rewrite length_map.
  by destruct (dedup_pure fs (x :: l)); [apply elem_of_nil in Hv|].
Qed.

(** On well-formed, non-empty input the analysis returns, and returns the
    report of [analyze_pure]. *)
Lemma analyze_journey_ok (h : hash_order) (kiwi_data edreams_data : list itinerary) :
  forallb (valid fs) kiwi_data = true →
  forallb (valid fs) edreams_data = true →
  kiwi_data ≠ [] → edreams_data ≠ [] →
  analyze_journey fs h kiwi_data edreams_data
  = Ok (analyze_pure fs h kiwi_data edreams_data).
Proof.
  intros Hk He Hkne Hene.
  pose proof (dedup_values_valid _ Hk) as Huk.
  pose proof (dedup_values_nonempty _ Hkne) as Huk_ne.
  unfold analyze_journey.
  rewrite (proj1 (dedup_ok fs kiwi_data Hk)), bind_ok.
  rewrite (id_set_ok fs _ Huk), bind_ok.
  rewrite (id_set_ok fs _ He), bind_ok.
  rewrite (cheapest_ok fs _ He Hene), bind_ok.
  rewrite (cheapest_ok fs _ Hk Hkne), bind_ok.
  rewrite (ids_cheaper_than_ok fs _ _ Hk), bind_ok.
  rewrite ?percent_or_zero_ok, ?bind_ok.
  rewrite (compare_ok fs h _ _ _ He Huk), bind_ok by set_solver.
  rewrite ?percent_or_zero_ok, ?bind_ok.
  rewrite (count_cheaper_non_repeated_ok fs _ _ _ Huk), bind_ok.
  rewrite truediv_ok, bind_ok; cycle 1.
  { pose proof (subseteq_size
                  (ids (od_values (dedup_pure fs kiwi_data)) ∩ ids edreams_data)
                  (ids edreams_data)) as Hsz.
    lapply Hsz; [lia | set_solver]. }
  rewrite (hub_breakdown_ok fs _ _ _ Huk), bind_ok.
  rewrite ?percent_or_zero_ok, ?bind_ok.
  rewrite (flights_of_missing_ok fs _ _ Huk), bind_ok.
  rewrite (count_constructible_ok fs _ _ _ Huk), bind_ok.
  rewrite ?percent_or_zero_ok, ?bind_ok.
  rewrite (itins_cheaper_than_ok fs _ _ Huk), bind_ok.
  rewrite ?percent_or_zero_ok, ?bind_ok.
  rewrite (dict_by_id_ok fs _ Hk), bind_ok.
  rewrite format_distribution_ok, bind_ok by apply hub_distribution_total.
  rewrite (dict_by_id_cheaper_than_ok fs _ _ Hk), bind_ok.
  rewrite format_distribution_ok, bind_ok by apply hub_distribution_total.
  reflexivity.
Qed.

End analysis_ok.


(** ** Strings *)

Lemma append_cons (ch : ascii) (a b : string) :
  String ch a +:+ b = String ch (a +:+ b).
Proof. reflexivity. Qed.

Lemma append_nil_l (a : string) : "" +:+ a = a.
Proof. reflexivity. Qed.

Lemma append_assoc (a b c : string) : (a +:+ b) +:+ c = a +:+ (b +:+ c).
Proof. induction a as [|ch a IH]; [done|]. by rewrite !append_cons, IH. Qed.

(** Joining with a separator and prefixing every item with it differ only
    by the separator in front, as long as there is an item. *)
Lemma concat_sep_prefix (sep : string) (l : list string) :
  l ≠ [] →
  sep +:+ String.concat sep l = String.concat "" (map (String.append sep) l).
Proof.
  induction l as [|x [|y l] IH]; intros Hne; [done | done |].
  change (String.concat sep (x :: y :: l))
    with (x +:+ sep +:+ String.concat sep (y :: l)).
  change (String.concat "" (map (String.append sep) (x :: y :: l)))
    with ((sep +:+ x) +:+ "" +:+ String.concat "" (map (String.append sep) (y :: l))).
  rewrite <- IH by done. by rewrite append_nil_l, append_assoc.
Qed.

(** ** Identity builders *)

Section identity.
Import MapperKiwi MapperEdreams.

Definition kiwi_pair (sg : kiwi_segment) : string * string :=
  (default "" (carrier_code sg), default "" (code sg)).

Definition edreams_pair (seg : edo_segment) : string * string :=
  (carrierCode seg, drop2 (flightCode seg)).

(** On itineraries with at least one segment the two builders agree. *)
Lemma identity_agree_nonempty (k : kiwi_itinerary) (segments : list edo_segment)
    (section_count : nat) :
  outbound_sectors k ++ inbound_sectors k ≠ [] →
  map kiwi_pair (outbound_sectors k ++ inbound_sectors k)
    = map edreams_pair segments →
  length (outbound_sectors k ++ inbound_sectors k) = section_count →
  generate_itinerary_id k = generate_edreams_itinerary_id segments section_count.
Proof.
  intros Hne Hpairs Hlen.
  unfold generate_itinerary_id, generate_edreams_itinerary_id.
  set (sectors := outbound_sectors k ++ inbound_sectors k) in *.
  assert (Hcar : map (λ sg, default "" (carrier_code sg)) sectors
                 = map carrierCode segments).
  { transitivity (map fst (map kiwi_pair sectors)); [by rewrite map_map|].
    rewrite Hpairs. by rewrite map_map. }
  assert (Hseg : map (String.append "-")
                   (map (λ sg, default "" (carrier_code sg) +:+ "-"
                               +:+ default "" (code sg)) sectors)
                 = map (λ seg, "-" +:+ carrierCode seg +:+ "-"
                               +:+ drop2 (flightCode seg)) segments).
  { transitivity (map (λ p : string * string, "-" +:+ p.1 +:+ "-" +:+ p.2)
                      (map kiwi_pair sectors)); [by rewrite !map_map|].
    rewrite Hpairs. by rewrite map_map. }
  rewrite length_map, Hlen, Hcar, <- Hseg.
  rewrite <- concat_sep_prefix.
  - reflexivity.
  - destruct sectors; [done | by simpl].
Qed.

(** C1: the Kiwi builder and the eDreams builder are meant to give equal
    identities to itineraries with equal (carrier, flight-number) sequences
    and equal section counts.  For the itinerary without segments (both
    sequences empty, section count 0) the Kiwi builder leaves a trailing
    separator, so the two identities differ. *)
Theorem C1_identity_differs_on_empty_itinerary :
  let k := KiwiItinerary [] [] in
  map kiwi_pair (outbound_sectors k ++ inbound_sectors k) = map edreams_pair []
  ∧ length (outbound_sectors k ++ inbound_sectors k) = 0
  ∧ generate_itinerary_id k = "s0-c0-"
  ∧ generate_edreams_itinerary_id [] 0 = "s0-c0"
  ∧ generate_itinerary_id k ≠ generate_edreams_itinerary_id [] 0.
Proof. by vm_compute. Qed.

End identity.

(** ** Hub count *)

(** C6: the hub count is [max(outbound − 1, inbound − 1, 0)]; a leg without
    segments contributes 0, and three outbound segments with one inbound
    segment give 2. *)
Theorem C6_hub_count :
  (∀ itin : itinerary,
     compute_hub_count itin
     = Z.max (Z.max (Z.of_nat (length (outbound itin)) - 1)
                    (Z.of_nat (length (inbound itin)) - 1)) 0)
  ∧ (∀ (i : option string) (p : option jvalue) (segs : list segment),
       compute_hub_count (Itinerary i p [] segs)
       = Z.max (Z.of_nat (length segs) - 1) 0
       ∧ compute_hub_count (Itinerary i p segs [])
         = Z.max (Z.of_nat (length segs) - 1) 0)
  ∧ (∀ (i : option string) (p : option jvalue) (s1 s2 s3 s4 : segment),
       compute_hub_count (Itinerary i p [s1; s2; s3] [s4]) = 2%Z).
Proof.
  assert (Hgen : ∀ itin : itinerary,
     compute_hub_count itin
     = Z.max (Z.max (Z.of_nat (length (outbound itin)) - 1)
                    (Z.of_nat (length (inbound itin)) - 1)) 0).
  { intros itin. unfold compute_hub_count.
    repeat case_match; rewrite ?Z.ltb_lt, ?Z.ltb_ge in *; lia. }
  split; [exact Hgen|]. split.
  - intros i p segs. rewrite !Hgen. simpl. lia.
  - intros. reflexivity.
Qed.

(** * Further properties *)

Import Examples.

(** ** Lists *)

Lemma List_filter_app {A} (p : A → bool) (l1 l2 : list A) :
  List.filter p (l1 ++ l2) = List.filter p l1 ++ List.filter p l2.
Proof. induction l1 as [|x l1 IH]; [done|]. simpl. destruct (p x); simpl; by rewrite IH. Qed.

Lemma List_filter_elem_of {A} (p : A → bool) (l : list A) (x : A) :
  x ∈ List.filter p l ↔ x ∈ l ∧ p x = true.
Proof. rewrite !list_elem_of_In. apply List.filter_In. Qed.

Lemma List_filter_ext_in {A} (p q : A → bool) (l : list A) :
  (∀ x, x ∈ l → p x = q x) → List.filter p l = List.filter q l.
Proof.
  intros H. apply List.filter_ext_in. intros x Hx. apply H. by apply list_elem_of_In.
Qed.

Lemma List_filter_map {A B} (g : A → B) (p : B → bool) (l : list A) :
  List.filter p (map g l) = map g (List.filter (λ x, p (g x)) l).
Proof. induction l as [|x l IH]; [done|]. simpl. destruct (p (g x)); simpl; by rewrite IH. Qed.

Lemma List_filter_nil {A} (p : A → bool) (l : list A) :
  (∀ x, x ∈ l → p x = false) → List.filter p l = [].
Proof.
  induction l as [|x l IH]; intros H; [done|]. simpl.
  rewrite H by left. apply IH. intros y Hy. apply H. by right.
Qed.

Lemma List_filter_NoDup {A} (p : A → bool) (l : list A) :
  NoDup l → NoDup (List.filter p l).
Proof.
  induction 1 as [|x l Hx Hl IH]; simpl; [constructor|].
  destruct (p x); [|done]. constructor; [|done].
  rewrite List_filter_elem_of. tauto.
Qed.

Lemma List_filter_Permutation {A} (p : A → bool) (l1 l2 : list A) :
  l1 ≡ₚ l2 → List.filter p l1 ≡ₚ List.filter p l2.
Proof.
  induction 1 as [|x l1 l2 _ IH|x y l|l1 l2 l3 _ IH1 _ IH2]; simpl.
  - done.
  - destruct (p x); [by constructor | done].
  - destruct (p x), (p y); try done. apply perm_swap.
  - by etrans.
Qed.

Lemma List_filter_filter {A} (p q : A → bool) (l : list A) :
  List.filter p (List.filter q l) = List.filter (λ x, q x && p x) l.
Proof.
  induction l as [|x l IH]; [done|]. simpl.
  destruct (q x); simpl; [destruct (p x)|]; by rewrite IH.
Qed.

(** Counting the members of a set that have a property does not depend on
    the list that enumerates the set. *)
Lemma count_enumeration (p : string → bool) (s : gset string) (l : list string) :
  NoDup l → (∀ x, x ∈ l ↔ x ∈ s) →
  length (List.filter p l) = length (List.filter p (elements s)).
Proof.
  intros Hnd Hl. apply Permutation_length, List_filter_Permutation.
  apply NoDup_Permutation; [done | apply NoDup_elements |].
  intros x. rewrite Hl. by rewrite elem_of_elements.
Qed.

(** ** The running minimum *)

Lemma lowest_snoc (l : list pyfloat) (y : pyfloat) :
  lowest (l ++ [y]) = match l with [] => y | _ => keep_lower (lowest l) y end.
Proof.
  destruct l as [|x l]; [done|]. simpl. by rewrite fold_left_app.
Qed.

(** ** Identities of a deduplicated list *)

Lemma elem_of_ids (l : list itinerary) i : i ∈ ids l ↔ ∃ it, it ∈ l ∧ rid it = i.
Proof.
  unfold ids. rewrite elem_of_list_to_set, list_elem_of_fmap. naive_solver.
Qed.

Section dedup_ids.
Variable fs : string → option pyfloat.

Lemma dedup_pure_key_rid l k v : (k, v) ∈ dedup_pure fs l → rid v = k ∧ v ∈ l.
Proof.
  intros Hin. destruct (dedup_pure_keys fs l) as (Ha & _ & Hnd).
  apply Ha. by apply od_elem_of_get.
Qed.

Lemma dedup_pure_rid_keys l :
  map rid (od_values (dedup_pure fs l)) = od_keys (dedup_pure fs l).
Proof.
  unfold od_values, od_keys. rewrite map_map. apply map_ext_in.
  intros [k v] Hin%list_elem_of_In. simpl. by apply dedup_pure_key_rid in Hin as [? _].
Qed.

Lemma dedup_pure_ids l : ids (od_values (dedup_pure fs l)) = ids l.
Proof.
  destruct (dedup_pure_keys fs l) as (Ha & Hb & Hnd).
  apply set_eq. intros i. rewrite !elem_of_ids. split.
  - intros (v & Hv & Hi). apply od_values_get in Hv as [k Hk].
    apply dedup_pure_key_rid in Hk as [? ?]. eauto.
  - intros (it & Hit & <-). destruct (Hb it Hit) as [v Hv].
    exists v. split; [|by apply Ha in Hv as [? _]].
    apply od_get_elem_of in Hv. apply list_elem_of_fmap. by exists (rid it, v).
Qed.

Lemma dedup_pure_length l : length (od_values (dedup_pure fs l)) = size (ids l).
Proof.
  rewrite <- dedup_pure_ids. unfold ids. rewrite dedup_pure_rid_keys.
  rewrite size_list_to_set by apply dedup_pure_keys.
  unfold od_values, od_keys. by rewrite !length_map.
Qed.

(** The retained record carries the lowest price of its identity. *)
Lemma dedup_pure_lowest_price l k v :
  od_get (dedup_pure fs l) k = Some v → rprice fs v = lowest_price fs l k.
Proof.
  revert k v. induction l as [|x l IH] using rev_ind; intros k v; [done|].
  destruct (dedup_pure_keys fs l) as (Ha & Hb & _).
  rewrite dedup_pure_snoc. unfold dedup_pure_step, lowest_price.
  rewrite List_filter_app, map_app. simpl.
  destruct (String.eqb (rid x) k) eqn:E.
  - apply String.eqb_eq in E as <-. simpl. rewrite lowest_snoc.
    destruct (od_get (dedup_pure fs l) (rid x)) as [kept|] eqn:Hget.
    + pose proof (IH _ _ Hget) as Hkept. unfold lowest_price in Hkept.
      destruct (Ha _ _ Hget) as [Hrid Hin].
      assert (kept ∈ List.filter (λ it, String.eqb (rid it) (rid x)) l) as Hf.
      { apply List_filter_elem_of. split; [done|]. by apply String.eqb_eq. }
      destruct (List.filter _ l) as [|y ys]; [by apply elem_of_nil in Hf|].
      unfold keep_lower. simpl in Hkept |- *. rewrite <- Hkept.
      destruct (float_lt (rprice fs x) (rprice fs kept)).
      * rewrite od_get_set_eq. by intros [= <-].
      * rewrite Hget. by intros [= <-].
    + rewrite od_get_set_eq. intros [= <-].
      rewrite List_filter_nil; [done|].
      intros y Hy. apply String.eqb_neq. intros Hid.
      destruct (Hb y Hy) as [? Hsome]. rewrite Hid in Hsome. congruence.
  - simpl. rewrite app_nil_r. apply String.eqb_neq in E. intros Hk. apply IH.
    destruct (od_get (dedup_pure fs l) (rid x)) as [kept|];
      [destruct (float_lt _ _)|]; by rewrite ?od_get_set_ne in Hk.
Qed.

(** Looking an identity up in the list of retained records. *)
Lemma find_od_values (d : list (string * itinerary)) i :
  (∀ k v, (k, v) ∈ d → rid v = k) →
  List.find (λ entry, String.eqb (rid entry) i) (od_values d) = od_get d i.
Proof.
  induction d as [|[k v] d IH]; intros Hd; [done|]. simpl.
  rewrite (Hd k v) by left. destruct (String.eqb k i); [done|].
  apply IH. intros k' v' Hin. apply Hd. by right.
Qed.

Lemma listed_price_dedup l i :
  i ∈ ids l →
  listed_price fs (od_values (dedup_pure fs l)) i = lowest_price fs l i.
Proof.
  intros (it & Hit & <-)%elem_of_ids. unfold listed_price.
  rewrite find_od_values by (intros k v Hkv; by apply dedup_pure_key_rid in Hkv as [? _]).
  destruct (dedup_pure_keys fs l) as (_ & Hb & _).
  destruct (Hb it Hit) as [v Hv]. rewrite Hv. by apply dedup_pure_lowest_price.
Qed.

End dedup_ids.

(** ** Counting comparisons *)

Section compare_counts.
Variable fs : string → option pyfloat.

Lemma compare_pure_counts ed uk (l : list string) (c : nat * nat) :
  fold_left (compare_pure_step fs ed uk) l c
  = (c.1 + length (List.filter
                     (λ i, float_lt (listed_price fs ed i) (listed_price fs uk i)) l),
     c.2 + length (List.filter
                     (λ i, float_lt (listed_price fs uk i) (listed_price fs ed i)) l)).
Proof.
  revert c. induction l as [|i l IH]; intros [a b]; simpl.
  - f_equal; lia.
  - rewrite IH. unfold compare_pure_step. simpl.
    destruct (float_lt (listed_price fs ed i) (listed_price fs uk i)) eqn:E1.
    + rewrite (float_lt_asym _ _ E1). simpl. f_equal; lia.
    + destruct (float_lt (listed_price fs uk i) (listed_price fs ed i)); simpl; f_equal; lia.
Qed.

End compare_counts.

(** ** The dictionary comprehension [{it["id"]: it for it in data}] *)

Lemma relist_snoc l x : relist (l ++ [x]) = od_set (relist l) (rid x) x.
Proof. unfold relist. by rewrite fold_left_app. Qed.

(** The record held for an identity is the last one of the list with it. *)
Lemma relist_get_last l k :
  od_get (relist l) k = last (List.filter (λ it, String.eqb (rid it) k) l).
Proof.
  induction l as [|x l IH] using rev_ind; [done|].
  rewrite relist_snoc, List_filter_app. simpl.
  destruct (String.eqb (rid x) k) eqn:E.
  - apply String.eqb_eq in E as <-. by rewrite od_get_set_eq, last_snoc.
  - apply String.eqb_neq in E. by rewrite od_get_set_ne, app_nil_r.
Qed.

Lemma relist_keys l :
  NoDup (od_keys (relist l)) ∧ (∀ k, k ∈ od_keys (relist l) ↔ k ∈ ids l).
Proof.
  induction l as [|x l [Hnd Hk]] using rev_ind.
  - split; [constructor|]. intros k. unfold ids. simpl. set_solver.
  - rewrite relist_snoc. split; [by apply od_keys_set_NoDup|].
    intros k. rewrite od_keys_set. unfold ids. rewrite map_app, list_to_set_app.
    fold (ids l). simpl. case_bool_decide as Hin.
    + rewrite Hk. apply Hk in Hin. set_solver.
    + rewrite elem_of_app, Hk. set_solver.
Qed.

Lemma relist_length l : length (od_values (relist l)) = size (ids l).
Proof.
  destruct (relist_keys l) as [Hnd Hk].
  transitivity (length (od_keys (relist l))).
  { unfold od_values, od_keys. by rewrite !length_map. }
  rewrite <- (size_list_to_set (C:=gset string)) by done.
  f_equal. apply set_eq. intros k. by rewrite elem_of_list_to_set.
Qed.

(** ** Flight strings *)

Lemma add_flights_spec (flights : gset string) (segs : list segment) :
  add_flights flights segs
  = flights ∪ list_to_set (map flight_string (List.filter has_flight segs)).
Proof.
  unfold add_flights. revert flights.
  induction segs as [|seg segs IH]; intros flights; simpl.
  - set_solver.
  - rewrite IH. unfold has_flight at 2. unfold flight_string at 2.
    destruct (truthy (carrierCode seg) && truthy (flightCode seg)); simpl; set_solver.
Qed.

Lemma flights_fold_spec (B : list itinerary) (acc : gset string) :
  fold_left
    (λ flights itin, add_flights (add_flights flights (outbound itin)) (inbound itin))
    B acc
  = acc ∪ list_to_set (flight_universe B).
Proof.
  revert acc. induction B as [|itin B IH]; intros acc; simpl.
  - unfold flight_universe. simpl. set_solver.
  - rewrite IH, !add_flights_spec.
    unfold flight_universe. simpl. fold (flight_universe B).
    unfold flight_strings, all_segments.
    rewrite List_filter_app, map_app, !list_to_set_app_L. set_solver.
Qed.

Lemma flights_of_spec (B : list itinerary) :
  flights_of B = list_to_set (flight_universe B).
Proof. unfold flights_of. rewrite flights_fold_spec. set_solver. Qed.

Lemma names_a_flight_strings itin :
  names_a_flight itin = negb (bool_decide (flight_strings itin = [])).
Proof.
  unfold names_a_flight, flight_strings.
  induction (all_segments itin) as [|seg segs IH]; [done|]. simpl.
  destruct (has_flight seg); simpl; [done|]. by rewrite IH.
Qed.

Lemma constructible_spec (itin : itinerary) (B : list itinerary) :
  constructible itin (flights_of B)
  = names_a_flight itin && every_flight_offered itin B.
Proof.
  unfold constructible. rewrite add_flights_spec, flights_of_spec.
  fold (flight_strings itin). rewrite names_a_flight_strings.
  unfold every_flight_offered.
  f_equal.
  - f_equal. apply bool_decide_ext. split.
    + intros Hempty. destruct (flight_strings itin) as [|f fs]; [done|].
      exfalso. assert (f ∈ (∅ : gset string)) as Hf by (rewrite <- Hempty; set_solver).
      set_solver.
    + intros ->. set_solver.
  - apply eq_true_iff_eq. rewrite bool_decide_eq_true, forallb_forall. split.
    + intros Hsub f Hf%list_elem_of_In. apply bool_decide_eq_true.
      assert (f ∈ (list_to_set (flight_universe B) : gset string)) as Hin
        by (apply Hsub; set_solver).
      by apply elem_of_list_to_set in Hin.
    + intros Hall f Hf. apply elem_of_union in Hf as [Hf|Hf]; [set_solver|].
      apply elem_of_list_to_set in Hf. apply elem_of_list_to_set.
      apply list_elem_of_In in Hf. apply Hall in Hf.
      by apply bool_decide_eq_true in Hf.
Qed.

(** ** The histogram of hub counts *)

Lemma hub_distribution_snoc l x :
  hub_distribution (l ++ [x])
  = <[compute_hub_count x :=
        default 0 (hub_distribution l !! compute_hub_count x) + 1]>
      (hub_distribution l).
Proof. unfold hub_distribution. by rewrite fold_left_app. Qed.

Lemma hub_distribution_lookup l (c : Z) :
  hub_distribution l !! c
  = let n := length (List.filter (λ it, Z.eqb (compute_hub_count it) c) l) in
    if Nat.eqb n 0 then None else Some n.
Proof.
  induction l as [|x l IH] using rev_ind; [done|].
  rewrite hub_distribution_snoc, List_filter_app, length_app. simpl.
  destruct (Z.eqb_spec (compute_hub_count x) c) as [->|Hne].
  - rewrite lookup_insert_eq. rewrite IH. simpl.
    destruct (length _) as [|n]; simpl; f_equal; lia.
  - rewrite lookup_insert_ne by done. rewrite IH. simpl.
    by rewrite Nat.add_0_r.
Qed.

Lemma sum_list_snd_Permutation (l1 l2 : list (Z * nat)) :
  l1 ≡ₚ l2 → sum_list (map snd l1) = sum_list (map snd l2).
Proof.
  induction 1 as [|x l1 l2 _ IH|x y l|l1 l2 l3 _ IH1 _ IH2]; simpl; lia.
Qed.

Lemma frequencies_insert (dist : gmap Z nat) c :
  frequencies (<[c := default 0 (dist !! c) + 1]> dist) = S (frequencies dist).
Proof.
  unfold frequencies. destruct (dist !! c) as [n|] eqn:Hc; simpl.
  - rewrite <- insert_delete_eq.
    rewrite (sum_list_snd_Permutation _ _
               (map_to_list_insert _ c (n + 1) (lookup_delete_eq dist c))).
    rewrite <- (sum_list_snd_Permutation _ _ (map_to_list_delete dist c n Hc)).
    simpl. lia.
  - rewrite (sum_list_snd_Permutation _ _ (map_to_list_insert _ c 1 Hc)).
    simpl. lia.
Qed.

Lemma hub_distribution_frequencies l :
  frequencies (hub_distribution l) = length l.
Proof.
  induction l as [|x l IH] using rev_ind; [done|].
  rewrite hub_distribution_snoc, frequencies_insert, IH, length_app. simpl. lia.
Qed.

(** ** Deduplication of the Kiwi list *)

Lemma forallb_numeric_valid fs l :
  forallb (numeric fs) l = true → forallb (valid fs) l = true.
Proof.
  intros H. apply forallb_forall. intros x Hx.
  eapply forallb_forall in H; [|exact Hx].
  unfold numeric in H. by apply andb_true_iff in H as [? _].
Qed.

Lemma forallb_numeric_not_nan fs l it :
  forallb (numeric fs) l = true → it ∈ l → is_nan (rprice fs it) = false.
Proof.
  intros H Hin%list_elem_of_In. eapply forallb_forall in H; [|exact Hin].
  unfold numeric in H. apply andb_true_iff in H as [_ H].
  by apply negb_true_iff in H.
Qed.

(** X1: on a list whose records all have an id and a price that [float]
    reads as a number, the deduplication loop returns a dictionary without
    repeated keys that holds every identity of the list, and the record it
    holds for an identity is the first one among those of lowest price:
    strictly cheaper than every earlier record of the identity, and not
    undercut by any later one. *)
Theorem dedup_keeps_first_lowest (fs : string → option pyfloat)
    (kiwi_data : list itinerary) :
  forallb (numeric fs) kiwi_data = true →
  ∃ d, dedup fs kiwi_data = Ok d
     ∧ NoDup (od_keys d)
     ∧ (∀ it, it ∈ kiwi_data → is_Some (od_get d (rid it)))
     ∧ (∀ k kept, od_get d k = Some kept → first_lowest fs kiwi_data k kept).
Proof.
  intros Hnum. exists (dedup_pure fs kiwi_data).
  destruct (dedup_ok fs kiwi_data (forallb_numeric_valid _ _ Hnum)) as [Hok _].
  destruct (dedup_pure_keys fs kiwi_data) as (_ & Hb & Hnd).
  repeat split; try done.
  apply dedup_pure_first_lowest. intros it Hit.
  by eapply forallb_numeric_not_nan.
Qed.

Lemma dedup_keeps_first_lowest_witness :
  ∃ d, dedup Run.float_of_decimal
             [kiwi_ten; kiwi_via_porto; kiwi_nine; kiwi_via_lisbon] = Ok d
     ∧ NoDup (od_keys d)
     ∧ (∀ it, it ∈ [kiwi_ten; kiwi_via_porto; kiwi_nine; kiwi_via_lisbon] →
              is_Some (od_get d (rid it)))
     ∧ (∀ k kept, od_get d k = Some kept →
          first_lowest Run.float_of_decimal
                       [kiwi_ten; kiwi_via_porto; kiwi_nine; kiwi_via_lisbon] k kept).
Proof. apply dedup_keeps_first_lowest. vm_compute. reflexivity. Defined.

(** ** Records the loops cannot read *)




Lemma comprehension_raises {A B} (f : A → result (option B)) (l : list A) (x : A) :
  x ∈ l → is_ok (f x) = false → is_ok (comprehension f l) = false.
Proof.
  intros Hx Hbad. induction l as [|y l IH]; [by apply elem_of_nil in Hx|].
  simpl. apply elem_of_cons in Hx as [<-|Hx].
  - by destruct (f x).
  - destruct (f y); [|done]. simpl.
    specialize (IH Hx). by destruct (comprehension f l).
Qed.



(** X3: an eDreams record without ["id"] or without a price that [float]
    accepts makes the analysis raise as well, whatever the Kiwi list is: the
    set of eDreams identities or the minimum eDreams price cannot be built. *)
Theorem invalid_edreams_record_aborts (fs : string → option pyfloat) (h : hash_order)
    (kiwi_data edreams_data : list itinerary) (it : itinerary) :
  it ∈ edreams_data → valid fs it = false →
  is_ok (analyze_journey fs h kiwi_data edreams_data) = false.
Proof.
  intros Hin Hbad. unfold analyze_journey.
  destruct (dedup fs kiwi_data) as [d|]; [|done]. simpl.
  destruct (id_set (od_values d)) as [ks|]; [|done]. simpl.
  destruct (id_set edreams_data) as [es|] eqn:Hes; [|done]. simpl.
  assert (is_ok (cheapest fs edreams_data) = false) as Hc.
  { unfold valid in Hbad. apply andb_false_iff in Hbad as [Hid|Hp].
    - exfalso. unfold id_set in Hes.
      assert (is_ok (comprehension (λ entry, i ← get_id entry; Ok (Some i))
                                   edreams_data) = false) as Hcomp.
      { eapply comprehension_raises; [exact Hin|]. by destruct (get_id it). }
      by destruct (comprehension _ edreams_data).
    - unfold cheapest.
      assert (is_ok (comprehension (λ entry, p ← get_price fs entry; Ok (Some p))
                                   edreams_data) = false) as Hcomp.
      { eapply comprehension_raises; [exact Hin|]. by destruct (get_price fs it). }
      by destruct (comprehension _ edreams_data). }
  by destruct (cheapest fs edreams_data).
Qed.

Lemma invalid_edreams_record_aborts_witness :
  is_ok (analyze_journey Run.float_of_decimal Run.ascending
           [kiwi_direct] [edreams_direct; kiwi_no_price]) = false.
Proof.
  apply (invalid_edreams_record_aborts _ _ _ _ kiwi_no_price).
  - vm_compute. right. left.
  - vm_compute. reflexivity.
Defined.

(** ** Empty collections *)

(** X4: when the eDreams list or the Kiwi list is empty, the analysis never
    returns a report: [min] of the empty price sequence raises before any of
    the guarded percentages is computed.  On well-formed records the
    exception is ValueError. *)
Theorem empty_collection_raises (fs : string → option pyfloat) (h : hash_order)
    (data : list itinerary) :
  is_ok (analyze_journey fs h data []) = false
  ∧ is_ok (analyze_journey fs h [] data) = false
  ∧ (forallb (valid fs) data = true →
     analyze_journey fs h data [] = Raise ValueError
     ∧ analyze_journey fs h [] data = Raise ValueError).
Proof.
  split; [|split].
  - unfold analyze_journey.
    destruct (dedup fs data) as [d|]; [|done]. simpl.
    by destruct (id_set (od_values d)).
  - unfold analyze_journey. simpl.
    destruct (id_set data) as [es|]; [|done]. simpl.
    by destruct (cheapest fs data).
  - intros Hv. split.
    + unfold analyze_journey.
      rewrite (proj1 (dedup_ok fs data Hv)), bind_ok.
      rewrite (id_set_ok fs _ (dedup_values_valid fs _ Hv)), bind_ok.
      done.
    + unfold analyze_journey. simpl.
      rewrite (id_set_ok fs _ Hv). simpl.
      destruct data as [|x l]; [done|].
      by rewrite (cheapest_ok fs) by done.
Qed.

Lemma empty_collection_raises_witness :
  analyze_journey Run.float_of_decimal Run.descending [kiwi_direct; kiwi_via_lisbon] []
  = Raise ValueError
  ∧ analyze_journey Run.float_of_decimal Run.descending [] [kiwi_direct; kiwi_via_lisbon]
    = Raise ValueError.
Proof.
  apply (empty_collection_raises Run.float_of_decimal Run.descending
           [kiwi_direct; kiwi_via_lisbon]).
  vm_compute. reflexivity.
Defined.

(** ** The report on well-formed input *)

Lemma set_iter_length (h : hash_order) (s : gset string) :
  length (set_iter h s) = size s.
Proof. by rewrite (Permutation_length (set_iter_perm h s)). Qed.

Lemma set_iter_count (h : hash_order) (p : string → bool) (s : gset string) :
  length (List.filter p (set_iter h s)) = count_ids p s.
Proof.
  unfold count_ids. apply Permutation_length, List_filter_Permutation, set_iter_perm.
Qed.

Lemma count_ids_ext (p q : string → bool) (s : gset string) :
  (∀ i, i ∈ s → p i = q i) → count_ids p s = count_ids q s.
Proof.
  intros H. unfold count_ids. f_equal. apply List_filter_ext_in.
  intros i Hi. apply H. by apply elem_of_elements.
Qed.

Lemma filter_disjoint_length {A} (p q : A → bool) (l : list A) :
  (∀ x, p x = true → q x = false) →
  length (List.filter p l) + length (List.filter q l) ≤ length l.
Proof.
  intros Hpq. induction l as [|x l IH]; [done|]. simpl.
  destruct (p x) eqn:Hp; [rewrite (Hpq x Hp)|destruct (q x)]; simpl; lia.
Qed.

Lemma size_difference_intersection (a b : gset string) :
  size (a ∖ b) + size (a ∩ b) = size a.
Proof.
  rewrite <- size_union by set_solver. f_equal.
  apply set_eq. intros x. destruct (decide (x ∈ b)); set_solver.
Qed.

Section report.
Variable fs : string → option pyfloat.
Variable h : hash_order.
Variables kiwi_data edreams_data : list itinerary.

Let unique_kiwi := od_values (dedup_pure fs kiwi_data).
Let bound := lowest (map (rprice fs) edreams_data).
Let repeated := ids kiwi_data ∩ ids edreams_data.

Lemma report_Total_Kiwi :
  Total_Kiwi (analyze_pure fs h kiwi_data edreams_data) = size (ids kiwi_data).
Proof. unfold analyze_pure. cbn [Total_Kiwi]. apply relist_length. Qed.

Lemma report_Total_eDreams :
  Total_eDreams (analyze_pure fs h kiwi_data edreams_data) = size (ids edreams_data).
Proof. reflexivity. Qed.

Lemma report_Repeated :
  Repeated (analyze_pure fs h kiwi_data edreams_data) = size repeated.
Proof. unfold analyze_pure. cbn [Repeated]. by rewrite dedup_pure_ids. Qed.

Lemma report_Missing_Content :
  (Missing_Content (analyze_pure fs h kiwi_data edreams_data))
  = (size (ids kiwi_data ∖ ids edreams_data),
     pct (size (ids kiwi_data ∖ ids edreams_data)) (size (ids kiwi_data))).
Proof.
  unfold analyze_pure. cbn [Missing_Content].
  by rewrite dedup_pure_ids, dedup_pure_length.
Qed.

Lemma report_Kiwi_cheaper :
  (Kiwi_cheaper (analyze_pure fs h kiwi_data edreams_data)).1
  = count_ids (λ i, float_lt (lowest_price fs kiwi_data i)
                             (listed_price fs edreams_data i)) repeated.
Proof.
  unfold analyze_pure. cbn [Kiwi_cheaper fst]. rewrite compare_pure_counts.
  cbn [snd]. rewrite set_iter_count, dedup_pure_ids. simpl.
  apply count_ids_ext. intros i Hi.
  rewrite listed_price_dedup; [done|]. subst repeated. set_solver.
Qed.

Lemma report_eDreams_cheaper :
  (eDreams_cheaper (analyze_pure fs h kiwi_data edreams_data)).1
  = count_ids (λ i, float_lt (listed_price fs edreams_data i)
                             (lowest_price fs kiwi_data i)) repeated.
Proof.
  unfold analyze_pure. cbn [eDreams_cheaper fst]. rewrite compare_pure_counts.
  cbn [fst]. rewrite set_iter_count, dedup_pure_ids. simpl.
  apply count_ids_ext. intros i Hi.
  rewrite listed_price_dedup; [done|]. subst repeated. set_solver.
Qed.

Lemma count_non_repeated :
  length (List.filter
            (λ entry,
               bool_decide (rid entry ∈ ids unique_kiwi
                                        ∖ (ids unique_kiwi ∩ ids edreams_data))
               && cheaper_than fs bound entry)
            unique_kiwi)
  = spec_non_repeated_below_minimum fs kiwi_data edreams_data.
Proof.
  subst unique_kiwi. rewrite dedup_pure_ids.
  unfold spec_non_repeated_below_minimum.
  set (p := λ i, bool_decide (i ∈ ids kiwi_data ∖ (ids kiwi_data ∩ ids edreams_data))
                 && float_lt (lowest_price fs kiwi_data i) bound).
  destruct (dedup_pure_keys fs kiwi_data) as (Ha & Hb & Hnd).
  transitivity (length (List.filter p (od_keys (dedup_pure fs kiwi_data)))).
  { rewrite <- dedup_pure_rid_keys, List_filter_map, length_map. f_equal.
    apply List_filter_ext_in. intros v Hv. unfold p, cheaper_than. f_equal.
    f_equal. apply od_values_get in Hv as [k Hk].
    pose proof (dedup_pure_key_rid fs _ _ _ Hk) as [<- _].
    apply dedup_pure_lowest_price. by apply od_elem_of_get. }
  assert (∀ k, k ∈ od_keys (dedup_pure fs kiwi_data) ↔ k ∈ ids kiwi_data) as Hkeys.
  { intros k. rewrite <- od_get_Some_keys. rewrite elem_of_ids. split.
    - intros [v Hv]. destruct (Ha _ _ Hv) as [? ?]. eauto.
    - intros (it & Hit & <-). by apply Hb. }
  rewrite (count_enumeration p _ _ Hnd Hkeys).
  unfold count_ids.
  assert (elements (ids kiwi_data ∖ ids edreams_data)
          ≡ₚ List.filter (λ i, bool_decide (i ∉ ids edreams_data))
                         (elements (ids kiwi_data))) as Hperm.
  { apply NoDup_Permutation.
    - apply NoDup_elements.
    - apply List_filter_NoDup, NoDup_elements.
    - intros i. rewrite List_filter_elem_of, !elem_of_elements, bool_decide_eq_true.
      set_solver. }
  rewrite (Permutation_length (List_filter_Permutation _ _ _ Hperm)).
  rewrite List_filter_filter. f_equal. apply List_filter_ext_in.
  intros i Hi%elem_of_elements. unfold p. f_equal.
  apply bool_decide_ext. set_solver.
Qed.

Lemma report_Overall :
  Overall_pct_Kiwi_cheaper (analyze_pure fs h kiwi_data edreams_data)
  = (inject_Z (100 * Z.of_nat (spec_non_repeated_below_minimum fs kiwi_data edreams_data
                               + spec_repeated_cheaper_in_A fs kiwi_data edreams_data))
     / inject_Z (spec_unique_itineraries kiwi_data edreams_data))%Q.
Proof.
  pose proof report_Kiwi_cheaper as Hk. pose proof count_non_repeated as Hn.
  unfold analyze_pure in *. cbn [Kiwi_cheaper Overall_pct_Kiwi_cheaper fst] in *.
  subst unique_kiwi bound repeated. rewrite Hk, Hn.
  unfold spec_unique_itineraries, spec_repeated_cheaper_in_A.
  by rewrite dedup_pure_length, dedup_pure_ids.
Qed.

Lemma report_Cheaper_than_cheapest :
  Kiwi_cheaper_than_eDO_cheapest (analyze_pure fs h kiwi_data edreams_data)
  = let n := length (List.filter (cheaper_than fs bound) kiwi_data) in
    (n, pct n (size (ids kiwi_data)), pct n (size (ids edreams_data))).
Proof.
  unfold analyze_pure. cbn [Kiwi_cheaper_than_eDO_cheapest].
  by rewrite length_map, dedup_pure_length.
Qed.

End report.

(** X5: on well-formed, non-empty input the analysis returns a report whose
    counts are those of the identity sets: the Kiwi total is the number of
    distinct Kiwi identities, the repeated count the size of the
    intersection, the missing count the size of the difference; missing and
    repeated add up to the Kiwi total, the repeated count does not exceed the
    eDreams total, and an identity is counted as cheaper for at most one of
    the two sources. *)
Theorem report_counts (fs : string → option pyfloat) (h : hash_order)
    (kiwi_data edreams_data : list itinerary) :
  forallb (valid fs) kiwi_data = true →
  forallb (valid fs) edreams_data = true →
  kiwi_data ≠ [] → edreams_data ≠ [] →
  ∃ r, analyze_journey fs h kiwi_data edreams_data = Ok r
     ∧ Total_Kiwi r = size (ids kiwi_data)
     ∧ Total_eDreams r = size (ids edreams_data)
     ∧ Repeated r = size (ids kiwi_data ∩ ids edreams_data)
     ∧ (Missing_Content r).1 = size (ids kiwi_data ∖ ids edreams_data)
     ∧ (Missing_Content r).1 + Repeated r = Total_Kiwi r
     ∧ Repeated r ≤ Total_eDreams r
     ∧ (Kiwi_cheaper r).1 + (eDreams_cheaper r).1 ≤ Repeated r.
Proof.
  intros Hk He Hkne Hene. exists (analyze_pure fs h kiwi_data edreams_data).
  split; [by apply analyze_journey_ok|].
  rewrite report_Total_Kiwi, report_Total_eDreams, report_Repeated,
    report_Missing_Content, report_Kiwi_cheaper, report_eDreams_cheaper.
  cbn [fst]. repeat split.
  - apply size_difference_intersection.
  - apply subseteq_size. set_solver.
  - unfold count_ids.
    etrans; [apply filter_disjoint_length; intros i; apply float_lt_asym|].
    done.
Qed.

Lemma report_counts_witness :
  ∃ r, analyze_journey Run.float_of_decimal Run.ascending
         [kiwi_via_lisbon; kiwi_via_porto; kiwi_direct; kiwi_two_hubs]
         [edreams_direct] = Ok r
     ∧ Total_Kiwi r
       = size (ids [kiwi_via_lisbon; kiwi_via_porto; kiwi_direct; kiwi_two_hubs])
     ∧ Total_eDreams r = size (ids [edreams_direct])
     ∧ Repeated r
       = size (ids [kiwi_via_lisbon; kiwi_via_porto; kiwi_direct; kiwi_two_hubs]
               ∩ ids [edreams_direct])
     ∧ (Missing_Content r).1
       = size (ids [kiwi_via_lisbon; kiwi_via_porto; kiwi_direct; kiwi_two_hubs]
               ∖ ids [edreams_direct])
     ∧ (Missing_Content r).1 + Repeated r = Total_Kiwi r
     ∧ Repeated r ≤ Total_eDreams r
     ∧ (Kiwi_cheaper r).1 + (eDreams_cheaper r).1 ≤ Repeated r.
Proof. apply report_counts; by vm_compute. Defined.

(** X6: on well-formed, non-empty input the reported overall percentage of
    itineraries where Kiwi is cheaper is 100 times the following fraction.
    Numerator: the Kiwi-only identities whose lowest Kiwi price is below the
    lowest eDreams price, plus the shared identities whose lowest Kiwi price
    is below the price of the first eDreams record with that identity.
    Denominator: distinct Kiwi identities + distinct eDreams identities
    − shared identities. *)
Theorem overall_cheaper_percentage (fs : string → option pyfloat) (h : hash_order)
    (kiwi_data edreams_data : list itinerary) :
  forallb (valid fs) kiwi_data = true →
  forallb (valid fs) edreams_data = true →
  kiwi_data ≠ [] → edreams_data ≠ [] →
  ∃ r, analyze_journey fs h kiwi_data edreams_data = Ok r
     ∧ (Overall_pct_Kiwi_cheaper r
        == 100 * spec_overall_cheaper_fraction fs kiwi_data edreams_data)%Q.
Proof.
  intros Hk He Hkne Hene. exists (analyze_pure fs h kiwi_data edreams_data).
  split; [by apply analyze_journey_ok|].
  rewrite report_Overall. unfold spec_overall_cheaper_fraction.
  rewrite inject_Z_mult. unfold Qdiv. ring.
Qed.

Lemma overall_cheaper_percentage_witness :
  ∃ r, analyze_journey Run.float_of_decimal Run.descending
         [kiwi_via_lisbon; kiwi_via_porto; kiwi_direct; kiwi_two_hubs]
         [edreams_direct] = Ok r
     ∧ (Overall_pct_Kiwi_cheaper r
        == 100 * spec_overall_cheaper_fraction Run.float_of_decimal
                   [kiwi_via_lisbon; kiwi_via_porto; kiwi_direct; kiwi_two_hubs]
                   [edreams_direct])%Q.
Proof. apply overall_cheaper_percentage; by vm_compute. Defined.

(** X7: the count of Kiwi itineraries cheaper than the cheapest eDreams one
    is taken over the raw Kiwi list, duplicates included, while its "% of
    Kiwi" divides by the number of distinct Kiwi identities; so when more
    raw records than distinct identities are cheaper, the percentage exceeds
    100. *)
Theorem cheaper_than_cheapest_counts_raw_records (fs : string → option pyfloat)
    (h : hash_order) (kiwi_data edreams_data : list itinerary) :
  forallb (valid fs) kiwi_data = true →
  forallb (valid fs) edreams_data = true →
  kiwi_data ≠ [] → edreams_data ≠ [] →
  let n := length (List.filter
                     (cheaper_than fs (lowest (map (rprice fs) edreams_data)))
                     kiwi_data) in
  ∃ r, analyze_journey fs h kiwi_data edreams_data = Ok r
     ∧ Kiwi_cheaper_than_eDO_cheapest r
       = (n, pct n (size (ids kiwi_data)), pct n (size (ids edreams_data)))
     ∧ (size (ids kiwi_data) < n → (100 < (Kiwi_cheaper_than_eDO_cheapest r).1.2)%Q).
Proof.
  intros Hk He Hkne Hene n. exists (analyze_pure fs h kiwi_data edreams_data).
  split; [by apply analyze_journey_ok|].
  rewrite report_Cheaper_than_cheapest. fold n. split; [done|].
  cbn [fst snd]. intros Hlt. unfold pct.
  pose proof (dedup_values_nonempty fs _ Hkne) as Hpos.
  rewrite dedup_pure_length in Hpos.
  destruct (Nat.eqb_spec (size (ids kiwi_data)) 0) as [|_]; [done|].
  apply Qlt_shift_div_l.
  - change 0%Q with (inject_Z 0). rewrite <- Zlt_Qlt. lia.
  - change 100%Q with (inject_Z 100). rewrite <- inject_Z_mult, <- Zlt_Qlt. lia.
Qed.

Lemma cheaper_than_cheapest_counts_raw_records_witness :
  ∃ r, analyze_journey Run.float_of_decimal Run.ascending
         [kiwi_via_lisbon; kiwi_via_porto] [edreams_direct] = Ok r
     ∧ Kiwi_cheaper_than_eDO_cheapest r = (2, 200%Q, 200%Q)
     ∧ (1 < 2 → (100 < (Kiwi_cheaper_than_eDO_cheapest r).1.2)%Q).
Proof.
  apply (cheaper_than_cheapest_counts_raw_records Run.float_of_decimal Run.ascending
           [kiwi_via_lisbon; kiwi_via_porto] [edreams_direct]); by vm_compute.
Defined.

(** ** Iteration order of sets *)





(** ** Constructible itineraries *)

(** X9: an itinerary is counted as constructible exactly when it names at
    least one flight (a segment with a non-empty carrier code and a
    non-empty flight code) and every flight string it names occurs among the
    flight strings of the eDreams itineraries; an itinerary that names no
    flight is never constructible. *)
Theorem constructible_iff_flights_offered (itin : itinerary) (B : list itinerary) :
  constructible itin (flights_of B)
  = names_a_flight itin && every_flight_offered itin B.
Proof. apply constructible_spec. Qed.

(** ** The second deduplication *)

(** X10: the hub-distribution stage builds its own dictionaries by identity,
    in which the record kept for an identity is the last one of the raw Kiwi
    list (of its cheap part for the cheap distribution), whatever the prices;
    the two reported distributions are computed from these dictionaries. *)
Theorem hub_distribution_keeps_last_record (fs : string → option pyfloat)
    (h : hash_order) (kiwi_data edreams_data : list itinerary) :
  forallb (valid fs) kiwi_data = true →
  forallb (valid fs) edreams_data = true →
  kiwi_data ≠ [] → edreams_data ≠ [] →
  ∃ r d dc,
    analyze_journey fs h kiwi_data edreams_data = Ok r
    ∧ dict_by_id kiwi_data = Ok d
    ∧ dict_by_id_cheaper_than fs (Cheapest_eDreams r) kiwi_data = Ok dc
    ∧ (∀ k, od_get d k = last (List.filter (λ it, String.eqb (rid it) k) kiwi_data))
    ∧ (∀ k, od_get dc k
            = last (List.filter (λ it, String.eqb (rid it) k)
                      (List.filter (cheaper_than fs (Cheapest_eDreams r)) kiwi_data)))
    ∧ format_distribution (hub_distribution (od_values d)) (length (od_values d))
      = Ok (Hubs_Distribution_All r)
    ∧ format_distribution (hub_distribution (od_values dc)) (length (od_values dc))
      = Ok (Hubs_Distribution_Cheap r).
Proof.
  intros Hk He Hkne Hene.
  exists (analyze_pure fs h kiwi_data edreams_data), (relist kiwi_data),
    (relist (List.filter (cheaper_than fs (lowest (map (rprice fs) edreams_data)))
                         kiwi_data)).
  split; [by apply analyze_journey_ok|].
  split; [by apply (dict_by_id_ok fs)|].
  split; [by apply dict_by_id_cheaper_than_ok|].
  split; [apply relist_get_last|]. split; [intros k; apply relist_get_last|].
  split; apply format_distribution_ok, hub_distribution_total.
Qed.

Lemma hub_distribution_keeps_last_record_witness :
  ∃ r d dc,
    analyze_journey Run.float_of_decimal Run.ascending
      [kiwi_via_lisbon; kiwi_via_porto] [edreams_direct] = Ok r
    ∧ dict_by_id [kiwi_via_lisbon; kiwi_via_porto] = Ok d
    ∧ dict_by_id_cheaper_than Run.float_of_decimal (Cheapest_eDreams r)
        [kiwi_via_lisbon; kiwi_via_porto] = Ok dc
    ∧ (∀ k, od_get d k = last (List.filter (λ it, String.eqb (rid it) k)
                                  [kiwi_via_lisbon; kiwi_via_porto]))
    ∧ (∀ k, od_get dc k
            = last (List.filter (λ it, String.eqb (rid it) k)
                      (List.filter (cheaper_than Run.float_of_decimal (Cheapest_eDreams r))
                                   [kiwi_via_lisbon; kiwi_via_porto])))
    ∧ format_distribution (hub_distribution (od_values d)) (length (od_values d))
      = Ok (Hubs_Distribution_All r)
    ∧ format_distribution (hub_distribution (od_values dc)) (length (od_values dc))
      = Ok (Hubs_Distribution_Cheap r).
Proof. apply hub_distribution_keeps_last_record; by vm_compute. Defined.

(** ** Hub distributions *)

(** X11: [hub_distribution] is the histogram of the hub counts: the entry of
    a hub count is the number of itineraries that have it, a hub count that
    no itinerary has is absent, and the frequencies add up to the number of
    itineraries. *)
Theorem hub_distribution_histogram (itineraries : list itinerary) :
  (∀ c : Z,
     hub_distribution itineraries !! c
     = let n := length (List.filter (λ it, Z.eqb (compute_hub_count it) c)
                                     itineraries) in
       if Nat.eqb n 0 then None else Some n)
  ∧ frequencies (hub_distribution itineraries) = length itineraries.
Proof.
  split; [apply hub_distribution_lookup | apply hub_distribution_frequencies].
Qed.

#[local] Instance item_le_total : Total item_le.
Proof. intros a b. unfold item_le. lia. Qed.

#[local] Instance item_le_trans : Transitive item_le.
Proof. intros a b c. unfold item_le. lia. Qed.








(** ** Deduplication, continued *)

Lemma od_set_fresh {V} (d : list (string * V)) k v :
  k ∉ od_keys d → od_set d k v = d ++ [(k, v)].
Proof.
  induction d as [|[k' v'] d IH]; simpl; intros Hk; [done|].
  apply not_elem_of_cons in Hk as [Hne Hk].
  apply not_eq_sym, String.eqb_neq in Hne. rewrite Hne. by rewrite IH.
Qed.

Lemma dedup_pure_fold_distinct fs (d acc : list (string * itinerary)) :
  NoDup (od_keys acc ++ od_keys d) →
  (∀ k v, (k, v) ∈ d → rid v = k) →
  fold_left (dedup_pure_step fs) (od_values d) acc = acc ++ d.
Proof.
  revert acc. induction d as [|[k v] d IH]; intros acc Hnd Hrid; simpl.
  - by rewrite app_nil_r.
  - assert (rid v = k) as Hv by (apply Hrid; left).
    assert (k ∉ od_keys acc) as Hfresh.
    { apply NoDup_app in Hnd as (_ & Hdisj & _). intros Hin.
      apply (Hdisj k Hin). left. }
    unfold dedup_pure_step at 2. rewrite Hv.
    destruct (od_get acc k) as [kept|] eqn:Hget.
    { exfalso. apply Hfresh. apply od_get_Some_keys. eauto. }
    rewrite od_set_fresh by done. rewrite IH.
    + by rewrite <- app_assoc.
    + unfold od_keys in *. rewrite map_app, <- app_assoc. exact Hnd.
    + intros k' v' Hin. apply Hrid. by right.
Qed.

(** X13: deduplicating the result of a deduplication changes nothing: on a
    list of well-formed records, running the loop again over the retained
    records returns the same dictionary, in the same order. *)
Theorem dedup_idempotent (fs : string → option pyfloat) (kiwi_data : list itinerary) :
  forallb (valid fs) kiwi_data = true →
  ∃ d, dedup fs kiwi_data = Ok d ∧ dedup fs (od_values d) = Ok d.
Proof.
  intros Hv. exists (dedup_pure fs kiwi_data).
  split; [by apply dedup_ok|].
  rewrite (proj1 (dedup_ok fs _ (dedup_values_valid fs _ Hv))). f_equal.
  unfold dedup_pure at 1. rewrite dedup_pure_fold_distinct; [done| |].
  - apply dedup_pure_keys.
  - intros k v Hin. by apply dedup_pure_key_rid in Hin as [? _].
Qed.

Lemma dedup_idempotent_witness :
  ∃ d, dedup Run.float_of_decimal
         [kiwi_via_porto; kiwi_direct; kiwi_via_lisbon; kiwi_two_hubs] = Ok d
     ∧ dedup Run.float_of_decimal (od_values d) = Ok d.
Proof. apply dedup_idempotent. by vm_compute. Defined.

(** ** The cheapest price *)

Lemma lowest_is_minimum (l : list pyfloat) :
  l ≠ [] → (∀ x, x ∈ l → is_nan x = false) →
  lowest l ∈ l ∧ ∀ x, x ∈ l → float_lt x (lowest l) = false.
Proof.
  induction l as [|y l IH] using rev_ind; [done|]. intros _ Hnan.
  destruct l as [|z l].
  { simpl. split; [by left|]. intros x ->%list_elem_of_singleton.
    destruct y as [q| | |]; simpl; try done. apply Qltb_ge, Qle_refl. }
  rewrite lowest_snoc.
  destruct IH as [Hin Hmin]; [done | intros x Hx; apply Hnan, elem_of_app; by left |].
  set (m := lowest (z :: l)) in *. unfold keep_lower.
  assert (∀ x, is_nan x = false → x ≠ FNaN) as Hne by (by intros [] ?).
  destruct (float_lt y m) eqn:Hlt.
  - split; [apply elem_of_app; right; by left|].
    intros x [Hx| ->%list_elem_of_singleton]%elem_of_app.
    + apply float_lt_asym.
      eapply float_lt_not_lt_trans; [|exact Hlt|by apply Hmin].
      apply Hne, Hnan, elem_of_app. by left.
    + destruct y as [q| | |]; simpl; try done. apply Qltb_ge, Qle_refl.
  - split; [apply elem_of_app; by left|].
    intros x [Hx| ->%list_elem_of_singleton]%elem_of_app; [by apply Hmin | done].
Qed.

(** X14: on a non-empty list of records whose prices [float] reads as
    numbers, the cheapest price is the price of one of the records and no
    record is priced below it. *)
Theorem cheapest_is_minimum (fs : string → option pyfloat) (data : list itinerary) :
  forallb (numeric fs) data = true → data ≠ [] →
  ∃ m, cheapest fs data = Ok m
     ∧ (∃ it, it ∈ data ∧ rprice fs it = m)
     ∧ (∀ it, it ∈ data → float_lt (rprice fs it) m = false).
Proof.
  intros Hnum Hne. exists (lowest (map (rprice fs) data)).
  split.
  { apply cheapest_ok; [|done]. apply forallb_forall. intros x Hx.
    eapply forallb_forall in Hnum; [|exact Hx].
    unfold numeric in Hnum. by apply andb_true_iff in Hnum as [? _]. }
  destruct (lowest_is_minimum (map (rprice fs) data)) as [Hin Hmin].
  - by destruct data.
  - intros x (it & -> & Hit%list_elem_of_In)%list_elem_of_fmap.
    eapply forallb_forall in Hnum; [|exact Hit].
    unfold numeric in Hnum. apply andb_true_iff in Hnum as [_ Hn].
    by apply negb_true_iff in Hn.
  - split.
    + apply list_elem_of_fmap in Hin as (it & Heq & Hit). eauto.
    + intros it Hit. apply Hmin. by apply list_elem_of_fmap_2.
Qed.

Lemma cheapest_is_minimum_witness :
  ∃ m, cheapest Run.float_of_decimal [kiwi_via_porto; kiwi_via_lisbon; kiwi_direct] = Ok m
     ∧ (∃ it, it ∈ [kiwi_via_porto; kiwi_via_lisbon; kiwi_direct]
              ∧ rprice Run.float_of_decimal it = m)
     ∧ (∀ it, it ∈ [kiwi_via_porto; kiwi_via_lisbon; kiwi_direct] →
              float_lt (rprice Run.float_of_decimal it) m = false).
Proof. apply cheapest_is_minimum; by vm_compute. Defined.

(** ** Bounds of the overall percentage *)

Lemma List_filter_length {A} (p : A → bool) (l : list A) :
  length (List.filter p l) ≤ length l.
Proof. induction l as [|x l IH]; [done|]. simpl. destruct (p x); simpl; lia. Qed.

Lemma count_ids_le (p : string → bool) (s : gset string) : count_ids p s ≤ size s.
Proof. unfold count_ids. apply List_filter_length. Qed.

(** X15: on well-formed, non-empty input the overall percentage of
    itineraries where Kiwi is cheaper lies between 0 and 100, and its
    denominator is positive, so the unguarded division of the source cannot
    fail there. *)
Theorem overall_percentage_bounds (fs : string → option pyfloat) (h : hash_order)
    (kiwi_data edreams_data : list itinerary) :
  forallb (valid fs) kiwi_data = true →
  forallb (valid fs) edreams_data = true →
  kiwi_data ≠ [] → edreams_data ≠ [] →
  ∃ r, analyze_journey fs h kiwi_data edreams_data = Ok r
     ∧ (0 <= Overall_pct_Kiwi_cheaper r)%Q
     ∧ (Overall_pct_Kiwi_cheaper r <= 100)%Q
     ∧ (0 < spec_unique_itineraries kiwi_data edreams_data)%Z.
Proof.
  intros Hk He Hkne Hene. exists (analyze_pure fs h kiwi_data edreams_data).
  split; [by apply analyze_journey_ok|].
  rewrite report_Overall.
  set (n1 := spec_non_repeated_below_minimum fs kiwi_data edreams_data).
  set (n2 := spec_repeated_cheaper_in_A fs kiwi_data edreams_data).
  assert (n1 ≤ size (ids kiwi_data ∖ ids edreams_data)) as H1 by apply count_ids_le.
  assert (n2 ≤ size (ids kiwi_data ∩ ids edreams_data)) as H2 by apply count_ids_le.
  pose proof (size_difference_intersection (ids kiwi_data) (ids edreams_data)) as Hsum.
  pose proof (subseteq_size (ids kiwi_data ∩ ids edreams_data) (ids edreams_data)) as Hsub.
  lapply Hsub; [clear Hsub; intros Hsub | set_solver].
  pose proof (dedup_values_nonempty fs _ Hkne) as Hpos.
  rewrite dedup_pure_length in Hpos.
  assert (0 < spec_unique_itineraries kiwi_data edreams_data)%Z as Hden
    by (unfold spec_unique_itineraries; lia).
  assert (0 < inject_Z (spec_unique_itineraries kiwi_data edreams_data))%Q as HdenQ.
  { change 0%Q with (inject_Z 0). by rewrite <- Zlt_Qlt. }
  split; [|split; [|done]].
  - apply Qle_shift_div_l; [done|]. rewrite Qmult_0_l.
    change 0%Q with (inject_Z 0). rewrite <- Zle_Qle. lia.
  - apply Qle_shift_div_r; [done|].
    change 100%Q with (inject_Z 100). rewrite <- inject_Z_mult, <- Zle_Qle.
    unfold spec_unique_itineraries. lia.
Qed.

Lemma overall_percentage_bounds_witness :
  ∃ r, analyze_journey Run.float_of_decimal Run.ascending
         [kiwi_via_lisbon; kiwi_via_porto; kiwi_direct] [edreams_direct] = Ok r
     ∧ (0 <= Overall_pct_Kiwi_cheaper r)%Q
     ∧ (Overall_pct_Kiwi_cheaper r <= 100)%Q
     ∧ (0 < spec_unique_itineraries [kiwi_via_lisbon; kiwi_via_porto; kiwi_direct]
                                     [edreams_direct])%Z.
Proof. apply overall_percentage_bounds; by vm_compute. Defined.

(** ** test1/remove-duplicates.py *)

Lemma find_snoc {A} (p : A → bool) (l : list A) (x : A) :
  List.find p (l ++ [x])
  = match List.find p l with
    | Some y => Some y
    | None => if p x then Some x else None
    end.
Proof. induction l as [|y l IH]; simpl; [done|]. by destruct (p y). Qed.

Lemma remove_duplicates_dict_snoc l x :
  fold_left remove_duplicates_step (l ++ [x]) []
  = remove_duplicates_step (fold_left remove_duplicates_step l []) x.
Proof. by rewrite fold_left_app. Qed.

Lemma remove_duplicates_step_cases d x :
  (itin_id x = None ∨ itin_id x = Some "" ∨
   ∃ k, itin_id x = Some k ∧ is_Some (od_get d k))
  ∧ remove_duplicates_step d x = d
  ∨ ∃ k, itin_id x = Some k ∧ k ≠ "" ∧ od_get d k = None
       ∧ remove_duplicates_step d x = od_set d k x.
Proof.
  unfold remove_duplicates_step. destruct (itin_id x) as [k|]; [|left; auto].
  simpl. destruct (String.eqb_spec k "") as [->|Hk]; simpl; [left; auto|].
  case_bool_decide as Hget; simpl.
  - left. split; [|done]. right. right. eauto.
  - right. exists k. split; [done|]. split; [done|]. split; [|done].
    destruct (od_get d k); [|done]. exfalso. apply Hget. eauto.
Qed.

(** What the dictionary of first occurrences holds. *)
Lemma remove_duplicates_dict (l : list itinerary) :
  let d := fold_left remove_duplicates_step l [] in
  NoDup (od_keys d)
  ∧ (∀ k v, (k, v) ∈ d → k ≠ "" ∧ itin_id v = Some k)
  ∧ (∀ k, k ≠ "" → od_get d k = List.find (has_id k) l)
  ∧ od_values d `sublist_of` l.
Proof.
  induction l as [|x l IH] using rev_ind.
  { simpl. split; [constructor|]. split; [by intros k v ?%elem_of_nil|]. done. }
  simpl in IH. destruct IH as (Hnd & Hkv & Hget & Hsub).
  rewrite remove_duplicates_dict_snoc. simpl.
  set (d := fold_left remove_duplicates_step l []) in *.
  destruct (remove_duplicates_step_cases d x)
    as [[Hcase ->]|(k & Hid & Hk & Hnone & ->)].
  - split; [done|]. split; [done|]. split.
    + intros k Hk. rewrite find_snoc, <- Hget by done. unfold has_id.
      destruct (od_get d k) eqn:Hd; [done|].
      case_bool_decide as Hx; [|done]. exfalso.
      destruct Hcase as [Hc|[Hc|(k' & Hc & Hsome)]]; try congruence.
      rewrite Hx in Hc. injection Hc as <-. rewrite Hd in Hsome. by destruct Hsome.
    + by apply sublist_inserts_r.
  - assert (k ∉ od_keys d) as Hfresh.
    { intros Hin%od_get_Some_keys. rewrite Hnone in Hin. by destruct Hin. }
    rewrite (od_set_fresh d k x Hfresh). split; [|split; [|split]].
    + unfold od_keys. rewrite map_app. simpl. apply NoDup_app.
      split; [done|]. split; [|apply NoDup_singleton].
      intros k' Hk' ->%list_elem_of_singleton. done.
    + intros k' v [Hin| [= -> ->]%list_elem_of_singleton]%elem_of_app; auto.
    + intros k' Hk'. rewrite find_snoc, <- Hget by done. unfold has_id.
      destruct (decide (k = k')) as [<-|Hne].
      * rewrite <- (od_set_fresh d k x Hfresh), od_get_set_eq, Hnone.
        by rewrite bool_decide_eq_true_2.
      * rewrite <- (od_set_fresh d k x Hfresh), od_get_set_ne by done.
        destruct (od_get d k'); [done|].
        rewrite bool_decide_eq_false_2; [done|]. congruence.
    + unfold od_values. rewrite map_app. simpl. by apply sublist_app.
Qed.

(** X16: [remove_duplicates] keeps, for every non-empty id, the first record
    of the input that has it, whatever the prices of the later ones; records
    without an id or with an empty id are dropped; the result has no two
    records with the same id and keeps the records in their input order. *)
Theorem remove_duplicates_keeps_first_seen (data : list itinerary) :
  remove_duplicates data `sublist_of` data
  ∧ NoDup (map itin_id (remove_duplicates data))
  ∧ (∀ it, it ∈ remove_duplicates data → truthy (itin_id it) = true)
  ∧ (∀ k, k ≠ "" →
       List.find (has_id k) (remove_duplicates data) = List.find (has_id k) data).
Proof.
  unfold remove_duplicates.
  destruct (remove_duplicates_dict data) as (Hnd & Hkv & Hget & Hsub).
  set (d := fold_left remove_duplicates_step data []) in *.
  assert (map itin_id (od_values d) = map Some (od_keys d)) as Hids.
  { unfold od_values, od_keys. rewrite !map_map. apply map_ext_in.
    intros [k v] Hin%list_elem_of_In. simpl. by apply Hkv in Hin as [_ ?]. }
  split; [done|]. split; [|split].
  - rewrite Hids. apply (NoDup_fmap_2 Some), Hnd.
  - intros it Hit. apply od_values_get in Hit as [k Hk].
    apply Hkv in Hk as [Hne ->]. simpl. by apply negb_true_iff, String.eqb_neq.
  - intros k Hk. rewrite <- Hget by done. clear Hget Hsub Hids.
    induction d as [|[k' v'] d IH]; [done|]. simpl.
    destruct (Hkv k' v') as [_ Hv']; [left|]. unfold has_id at 1. rewrite Hv'.
    apply NoDup_cons in Hnd as [_ Hnd].
    destruct (String.eqb_spec k' k) as [->|Hne].
    + by rewrite bool_decide_eq_true_2.
    + rewrite bool_decide_eq_false_2 by congruence. apply IH; [done|].
      intros k0 v0 Hin. apply Hkv. by right.
Qed.

Lemma remove_duplicates_fold_distinct (d acc : list (string * itinerary)) :
  NoDup (od_keys acc ++ od_keys d) →
  (∀ k v, (k, v) ∈ d → k ≠ "" ∧ itin_id v = Some k) →
  fold_left remove_duplicates_step (od_values d) acc = acc ++ d.
Proof.
  revert acc. induction d as [|[k v] d IH]; intros acc Hnd Hkv; simpl.
  - by rewrite app_nil_r.
  - destruct (Hkv k v) as [Hk Hv]; [left|].
    assert (k ∉ od_keys acc) as Hfresh.
    { apply NoDup_app in Hnd as (_ & Hdisj & _). intros Hin.
      apply (Hdisj k Hin). left. }
    assert (remove_duplicates_step acc v = acc ++ [(k, v)]) as ->.
    { unfold remove_duplicates_step. rewrite Hv. simpl.
      apply String.eqb_neq in Hk. rewrite Hk. simpl.
      rewrite bool_decide_eq_false_2.
      - simpl. by apply od_set_fresh.
      - by rewrite od_get_Some_keys. }
    rewrite IH.
    + by rewrite <- app_assoc.
    + unfold od_keys in *. rewrite map_app, <- app_assoc. exact Hnd.
    + intros k' v' Hin. apply Hkv. by right.
Qed.

Lemma remove_duplicates_keeps_first_seen_witness :
  List.find (has_id "s1-c1-IB-9") (remove_duplicates [kiwi_ten; kiwi_no_id; kiwi_nine])
  = List.find (has_id "s1-c1-IB-9") [kiwi_ten; kiwi_no_id; kiwi_nine].
Proof.
  apply (remove_duplicates_keeps_first_seen [kiwi_ten; kiwi_no_id; kiwi_nine]).
  done.
Defined.

(** X17: [remove_duplicates] is idempotent: a second pass over its own
    output returns that output unchanged. *)
Theorem remove_duplicates_idempotent (data : list itinerary) :
  remove_duplicates (remove_duplicates data) = remove_duplicates data.
Proof.
  unfold remove_duplicates.
  destruct (remove_duplicates_dict data) as (Hnd & Hkv & _ & _).
  by rewrite remove_duplicates_fold_distinct.
Qed.

(** ** The eDreams mapper *)

Lemma elem_of_concat {A} (x : A) (ls : list (list A)) :
  x ∈ concat ls ↔ ∃ l, l ∈ ls ∧ x ∈ l.
Proof.
  rewrite list_elem_of_In, in_concat. split.
  - intros (l & Hl & Hx). exists l. by rewrite !list_elem_of_In.
  - intros (l & Hl & Hx). exists l. by rewrite <- !list_elem_of_In.
Qed.

Section edreams_mapper.
Import MapperEdreams SimplifyEdreams.

Variable segment_map : gmap Z edo_raw_segment.
Variable section_map : gmap Z edo_section.
Variable location_map : gmap Z string.

Lemma process_segments_fold (segment_ids : list Z) (acc : list edo_segment) :
  fold_left
    (λ processed seg_id,
       match segment_map !! seg_id with
       | None => processed
       | Some seg_obj =>
           fold_left
             (λ processed section_id,
                let sec := default no_section (section_map !! section_id) in
                processed ++ [process_section seg_obj location_map sec])
             (segment_sections seg_obj) processed
       end)
    segment_ids acc
  = acc ++ concat (map (sections_of_segment segment_map section_map location_map) segment_ids).
Proof.
  revert acc. induction segment_ids as [|seg_id ids IH]; intros acc; simpl.
  - by rewrite app_nil_r.
  - rewrite IH. unfold SimplifyEdreams.sections_of_segment at 2.
    destruct (segment_map !! seg_id) as [seg_obj|]; [|done].
    rewrite (fold_left_snoc_map
               (λ section_id,
                  process_section seg_obj location_map
                    (default no_section (section_map !! section_id)))).
    by rewrite <- app_assoc.
Qed.

Lemma process_segments_concat (segment_ids : list Z) :
  process_segments segment_ids segment_map section_map location_map
  = concat (map (sections_of_segment segment_map section_map location_map) segment_ids).
Proof. unfold process_segments. by rewrite process_segments_fold. Qed.

Lemma count_sections_fold (ids : list Z) (n : nat) :
  fold_left
    (λ section_count seg_id,
       match segment_map !! seg_id with
       | Some seg_obj => section_count + length (segment_sections seg_obj)
       | None => section_count
       end)
    ids n
  = n + length (concat (map (sections_of_segment segment_map section_map location_map) ids)).
Proof.
  revert n. induction ids as [|seg_id ids IH]; intros n; simpl; [lia|].
  rewrite IH, length_app. unfold SimplifyEdreams.sections_of_segment at 2.
  destruct (segment_map !! seg_id); rewrite ?length_map; simpl; lia.
Qed.

Lemma count_sections_length (ids : list Z) :
  count_sections segment_map ids
  = length (process_segments ids segment_map section_map location_map).
Proof.
  unfold count_sections. by rewrite count_sections_fold, process_segments_concat.
Qed.

Lemma process_segments_app (a b : list Z) :
  process_segments (a ++ b) segment_map section_map location_map
  = process_segments a segment_map section_map location_map
    ++ process_segments b segment_map section_map location_map.
Proof. by rewrite !process_segments_concat, map_app, concat_app. Qed.

Lemma process_segments_carrier (ids : list Z) (seg : edo_segment) :
  seg ∈ process_segments ids segment_map section_map location_map →
  flightCode seg ≠ "" → carrierCode seg = take2 (flightCode seg).
Proof.
  rewrite process_segments_concat. intros Hin Hf.
  apply elem_of_concat in Hin as (l & Hl & Hseg).
  apply list_elem_of_fmap in Hl as (seg_id & -> & _).
  unfold SimplifyEdreams.sections_of_segment in Hseg.
  destruct (segment_map !! seg_id) as [seg_obj|]; [|by apply elem_of_nil in Hseg].
  apply list_elem_of_fmap in Hseg as (section_id & -> & _).
  unfold process_section in *. simpl in *.
  destruct (String.eqb_spec (default "" (section_flightCode
              (default no_section (section_map !! section_id)))) "") as [Heq|Hne];
    [done|].
  destruct (String.eqb_spec (take2 (default "" (section_flightCode
              (default no_section (section_map !! section_id))))) "") as [Ht|_];
    [|done].
  exfalso. revert Ht.
  destruct (default "" _) as [|a [|b r]]; [done| |]; by vm_compute.
Qed.

End edreams_mapper.

(** X18: [process_segments] emits, for each segment id found in the legend
    and in the order of the ids, one dictionary per section id of that
    segment (also for section ids missing from the legend); ids not in the
    legend contribute nothing, so the result for a concatenation of id lists
    is the concatenation of the results. *)
Theorem process_segments_by_section (segment_map : gmap Z SimplifyEdreams.edo_raw_segment)
    (section_map : gmap Z SimplifyEdreams.edo_section) (location_map : gmap Z string)
    (a b : list Z) :
  SimplifyEdreams.process_segments a segment_map section_map location_map
  = concat (map (SimplifyEdreams.sections_of_segment segment_map section_map
                   location_map) a)
  ∧ SimplifyEdreams.process_segments (a ++ b) segment_map section_map location_map
    = SimplifyEdreams.process_segments a segment_map section_map location_map
      ++ SimplifyEdreams.process_segments b segment_map section_map location_map
  ∧ SimplifyEdreams.process_segments
      (List.filter (λ i, bool_decide (is_Some (segment_map !! i))) a)
      segment_map section_map location_map
    = SimplifyEdreams.process_segments a segment_map section_map location_map
  ∧ length (SimplifyEdreams.process_segments a segment_map section_map location_map)
    = sum_list
        (map (λ i, match segment_map !! i with
                   | Some seg_obj => length (SimplifyEdreams.segment_sections seg_obj)
                   | None => 0
                   end) a).
Proof.
  split; [apply process_segments_concat|].
  split; [apply process_segments_app|]. split.
  - rewrite !process_segments_concat. induction a as [|i a IH]; [done|]. simpl.
    case_bool_decide as Hi; simpl; [by rewrite IH|].
    rewrite IH. unfold SimplifyEdreams.sections_of_segment at 2.
    destruct (segment_map !! i); [|done]. exfalso. apply Hi. eauto.
  - rewrite process_segments_concat. induction a as [|i a IH]; [done|]. simpl.
    rewrite length_app, IH. unfold SimplifyEdreams.sections_of_segment.
    destruct (segment_map !! i); by rewrite ?length_map.
Qed.

(** X19: the section count that [simplify_edreams_json] writes into the
    identity of an itinerary is always the number of segments of the
    simplified record, outbound and inbound together. *)
Theorem edreams_identity_counts_its_segments
    (segment_map : gmap Z SimplifyEdreams.edo_raw_segment)
    (section_map : gmap Z SimplifyEdreams.edo_section) (location_map : gmap Z string)
    (firstSegments secondSegments : list Z) :
  let '(itinerary_id, outbound_segments, inbound_segments) :=
    SimplifyEdreams.simplify_route segment_map section_map location_map
                                   firstSegments secondSegments in
  itinerary_id
  = MapperEdreams.generate_edreams_itinerary_id
      (outbound_segments ++ inbound_segments)
      (length outbound_segments + length inbound_segments).
Proof.
  unfold SimplifyEdreams.simplify_route.
  rewrite (count_sections_length _ section_map location_map).
  by rewrite process_segments_app, length_app.
Qed.

(** ** Flight strings of the two simplified formats *)

Lemma append_inv_head (a x y : string) : a +:+ x = a +:+ y → x = y.
Proof.
  induction a as [|c a IH]; [done|]. rewrite !append_cons. intros [= H]. auto.
Qed.

Lemma substring_length_le (s : string) (n m : nat) :
  String.length (String.substring n m s) ≤ m.
Proof.
  revert n m. induction s as [|c s IH]; intros [|n] [|m]; simpl; try lia.
  - specialize (IH 0 m). lia.
  - apply IH.
  - apply IH.
Qed.

Lemma drop2_neq (f : string) : f ≠ "" → drop2 f ≠ f.
Proof.
  intros Hf Heq. apply (f_equal String.length) in Heq. unfold drop2 in Heq.
  pose proof (substring_length_le f 2 (String.length f - 2)) as Hle.
  destruct f as [|a f]; [done|]. simpl in *. lia.
Qed.

(** X20: a dictionary written by [process_segments] for a section with a
    flight code has the first two characters of that code as carrier code;
    the analysis therefore reads its flight as carrier + full flight code.
    For a Kiwi sector that the identity builders treat as the same flight
    (same carrier, same number after the two-character prefix), the flight
    string read from the simplified Kiwi record is always different. *)
Theorem same_flight_different_flight_string
    (segment_map : gmap Z SimplifyEdreams.edo_raw_segment)
    (section_map : gmap Z SimplifyEdreams.edo_section) (location_map : gmap Z string)
    (segment_ids : list Z) (seg : MapperEdreams.edo_segment)
    (sector : SimplifyKiwi.kiwi_sector) :
  seg ∈ SimplifyEdreams.process_segments segment_ids segment_map section_map location_map →
  MapperEdreams.flightCode seg ≠ "" →
  kiwi_pair (SimplifyKiwi.sector_segment sector) = edreams_pair seg →
  MapperEdreams.carrierCode seg = SimplifyEdreams.take2 (MapperEdreams.flightCode seg)
  ∧ flight_string (SimplifyEdreams.as_record seg)
    = SimplifyEdreams.take2 (MapperEdreams.flightCode seg)
      +:+ MapperEdreams.flightCode seg
  ∧ flight_string (SimplifyKiwi.simplify_sector sector)
    ≠ flight_string (SimplifyEdreams.as_record seg).
Proof.
  intros Hin Hf Hpair.
  pose proof (process_segments_carrier _ _ _ _ _ Hin Hf) as Hc.
  split; [done|]. unfold flight_string. simpl. split; [by rewrite Hc|].
  unfold kiwi_pair, edreams_pair in Hpair. injection Hpair as -> ->.
  intros Heq%append_inv_head. by apply drop2_neq in Heq.
Qed.

Lemma same_flight_different_flight_string_witness :
  let seg := MapperEdreams.EdoSegment "MAD" "LIS" "2025-03-01T10:00:00"
               "2025-03-01T12:00:00" "TP1011" "TP" in
  let sector := MapperExamples.kiwi_sector_of "MAD" "LIS" "TP" "1011" in
  MapperEdreams.carrierCode seg = SimplifyEdreams.take2 (MapperEdreams.flightCode seg)
  ∧ flight_string (SimplifyEdreams.as_record seg)
    = SimplifyEdreams.take2 (MapperEdreams.flightCode seg)
      +:+ MapperEdreams.flightCode seg
  ∧ flight_string (SimplifyKiwi.simplify_sector sector)
    ≠ flight_string (SimplifyEdreams.as_record seg).
Proof.
  apply (same_flight_different_flight_string MapperExamples.segment_map
           MapperExamples.section_map MapperExamples.location_map [0%Z; 1%Z]).
  - vm_compute. left.
  - by vm_compute.
  - by vm_compute.
Defined.

(** ** Identities written by the two mappers *)

(** X21: when the sectors of a raw Kiwi itinerary and the segments that
    [process_segments] returns for an eDreams itinerary carry the same
    sequence of (carrier, flight number) pairs, and there is at least one,
    the two mappers write the same identity: the section count of the
    eDreams identity needs no separate agreement. *)
Theorem mappers_write_equal_identities
    (segment_map : gmap Z SimplifyEdreams.edo_raw_segment)
    (section_map : gmap Z SimplifyEdreams.edo_section) (location_map : gmap Z string)
    (firstSegments secondSegments : list Z) (raw : SimplifyKiwi.kiwi_raw_itinerary) :
  let sectors := map SimplifyKiwi.sector_segment
                     (SimplifyKiwi.raw_outbound raw ++ SimplifyKiwi.raw_inbound raw) in
  let route := SimplifyEdreams.simplify_route segment_map section_map location_map
                 firstSegments secondSegments in
  sectors ≠ [] →
  map kiwi_pair sectors = map edreams_pair (route.1.2 ++ route.2) →
  itin_id (SimplifyKiwi.simplify_itinerary raw) = Some route.1.1.
Proof.
  intros sectors route Hne Hpairs. simpl. f_equal.
  subst sectors route. unfold SimplifyEdreams.simplify_route in *. simpl in *.
  rewrite map_app in Hne, Hpairs.
  apply identity_agree_nonempty; simpl; [done | done |].
  rewrite (count_sections_length _ section_map location_map).
  rewrite process_segments_app.
  apply (f_equal length) in Hpairs. by rewrite !length_map in Hpairs.
Qed.

Lemma mappers_write_equal_identities_witness :
  itin_id (SimplifyKiwi.simplify_itinerary MapperExamples.raw_kiwi_via_lisbon)
  = Some (SimplifyEdreams.simplify_route MapperExamples.segment_map
            MapperExamples.section_map MapperExamples.location_map
            [0%Z] [1%Z; 5%Z]).1.1.
Proof.
  apply (mappers_write_equal_identities MapperExamples.segment_map
           MapperExamples.section_map MapperExamples.location_map
           [0%Z] [1%Z; 5%Z] MapperExamples.raw_kiwi_via_lisbon); by vm_compute.
Defined.

(** ** Reading the counts back from an identity *)

Section extract.
Import Extract.

Lemma digits_prefix_no_digit (s : string) :
  no_leading_digit s → digits_prefix s = (Decimal.Nil, s).
Proof. destruct s as [|c s]; simpl; [done|]. by intros ->. Qed.

Lemma digits_prefix_string_of_uint (d : Decimal.uint) (rest : string) :
  no_leading_digit rest →
  digits_prefix (NilEmpty.string_of_uint d +:+ rest) = (d, rest).
Proof.
  intros Hrest. induction d as [|d IH|d IH|d IH|d IH|d IH|d IH|d IH|d IH|d IH|d IH];
    cbn [NilEmpty.string_of_uint];
    [by apply digits_prefix_no_digit|..];
    rewrite append_cons; cbn [digits_prefix]; by rewrite IH.
Qed.

Lemma to_uint_not_Nil (n : nat) : Nat.to_uint n ≠ Decimal.Nil.
Proof.
  intros H. assert (n = 0) as ->.
  { rewrite <- (Unsigned.of_to n), H. reflexivity. }
  discriminate H.
Qed.

Lemma extract_uints (u v : Decimal.uint) (tail : string) :
  u ≠ Decimal.Nil → v ≠ Decimal.Nil → no_leading_digit tail →
  extract_segments_and_carriers
    (String "s" (NilEmpty.string_of_uint u
                 +:+ String "-" (String "c" (NilEmpty.string_of_uint v +:+ tail))))
  = Some (Nat.of_uint u, Nat.of_uint v).
Proof.
  intros Hu Hv Htail. cbn [extract_segments_and_carriers].
  rewrite Ascii.eqb_refl.
  rewrite digits_prefix_string_of_uint by done.
  destruct u; [done|..]; cbv beta iota; rewrite !Ascii.eqb_refl; cbn [andb];
    rewrite digits_prefix_string_of_uint by done;
    destruct v; done.
Qed.

Lemma extract_counts (n c : nat) (tail : string) :
  no_leading_digit tail →
  extract_segments_and_carriers ("s" +:+ str n +:+ "-c" +:+ str c +:+ tail)
  = Some (n, c).
Proof.
  intros Htail. unfold str.
  change ("s" +:+ ?x) with (String "s" x).
  change ("-c" +:+ ?x) with (String "-" (String "c" x)).
  rewrite extract_uints by (done || apply to_uint_not_Nil).
  by rewrite !Unsigned.of_to.
Qed.

Lemma no_leading_digit_dash (s : string) : no_leading_digit ("-" +:+ s).
Proof. reflexivity. Qed.

Lemma concat_prefixed_no_digit {A} (f : A → string) (l : list A) :
  no_leading_digit (String.concat "" (map (λ x, "-" +:+ f x) l)).
Proof.
  destruct l as [|x [|y l]]; [done| |]; simpl.
  - reflexivity.
  - reflexivity.
Qed.

End extract.

(** X22: [extract_segments_and_carriers] reads back the two counts that the
    identity builders write: from a Kiwi identity the number of sectors and
    of distinct carriers, from an eDreams identity the section count it was
    given and the number of distinct carriers. *)
Theorem extract_reads_back_counts :
  (∀ k : MapperKiwi.kiwi_itinerary,
     Extract.extract_segments_and_carriers (MapperKiwi.generate_itinerary_id k)
     = Some (length (MapperKiwi.outbound_sectors k ++ MapperKiwi.inbound_sectors k),
             size (list_to_set (C:=gset string)
                     (map (λ sg, default "" (MapperKiwi.carrier_code sg))
                          (MapperKiwi.outbound_sectors k
                           ++ MapperKiwi.inbound_sectors k)))))
  ∧ (∀ (segments : list MapperEdreams.edo_segment) (section_count : nat),
       Extract.extract_segments_and_carriers
         (MapperEdreams.generate_edreams_itinerary_id segments section_count)
       = Some (section_count,
               size (list_to_set (C:=gset string)
                       (map MapperEdreams.carrierCode segments)))).
Proof.
  split.
  - intros k. unfold MapperKiwi.generate_itinerary_id.
    rewrite length_map. apply extract_counts. apply no_leading_digit_dash.
  - intros segments section_count.
    unfold MapperEdreams.generate_edreams_itinerary_id.
    apply extract_counts.
    apply (concat_prefixed_no_digit
             (λ seg, MapperEdreams.carrierCode seg +:+ "-"
                     +:+ drop2 (MapperEdreams.flightCode seg))).
Qed.

(** ** Where the exceptions of the deduplication come from *)

Lemma dedup_error_source_fold fs (l0 l : list itinerary) (d : list (string * itinerary)) e :
  (∀ v, v ∈ od_values d → v ∈ l0) → (∀ x, x ∈ l → x ∈ l0) →
  foldM (dedup_step fs) l d = Raise e →
  ∃ it, it ∈ l0 ∧ (get_id it = Raise e ∨ get_price fs it = Raise e).
Proof.
  revert d. induction l as [|x l IH]; intros d Hd Hl; [done|]. simpl.
  destruct (dedup_step fs d x) as [d'|e'] eqn:Hstep; simpl.
  - apply IH; [|intros y Hy; apply Hl; by right].
    unfold dedup_step in Hstep.
    destruct (get_id x) as [i|]; [|done]. simpl in Hstep.
    destruct (get_price fs x) as [p|]; [|done]. simpl in Hstep.
    assert (∀ v, v ∈ od_values (od_set d i x) → v ∈ l0) as Hset.
    { intros v [->|Hv]%od_values_set; [apply Hl; by left | by apply Hd]. }
    destruct (od_get d i) as [kept|]; [|by injection Hstep as <-].
    destruct (get_price fs kept) as [q|]; [|done]. simpl in Hstep.
    injection Hstep as <-. by destruct (float_lt p q).
  - intros [= <-]. unfold dedup_step in Hstep.
    destruct (get_id x) as [i|e1] eqn:Hi; simpl in Hstep;
      [|injection Hstep as <-; exists x; split; [apply Hl; by left | by left]].
    destruct (get_price fs x) as [p|e1] eqn:Hp; simpl in Hstep;
      [|injection Hstep as <-; exists x; split; [apply Hl; by left | by right]].
    destruct (od_get d i) as [kept|] eqn:Hget; [|done].
    destruct (get_price fs kept) as [q|e1] eqn:Hq; simpl in Hstep; [done|].
    injection Hstep as <-. exists kept. split; [|by right].
    apply Hd. apply od_get_elem_of in Hget.
    apply list_elem_of_fmap. by exists (i, kept).
Qed.

Lemma dedup_error_source fs (l : list itinerary) e :
  dedup fs l = Raise e →
  ∃ it, it ∈ l ∧ (get_id it = Raise e ∨ get_price fs it = Raise e).
Proof.
  intros He. unfold dedup in He.
  eapply dedup_error_source_fold; [| |exact He]; [by intros v ?%elem_of_nil | done].
Qed.

Lemma dedup_is_ok fs (l : list itinerary) :
  is_ok (dedup fs l) = forallb (valid fs) l.
Proof.
  destruct (forallb (valid fs) l) eqn:Hv.
  - by rewrite (proj1 (dedup_ok fs l Hv)).
  - assert (∃ x, x ∈ l ∧ valid fs x = false) as (x & Hx & Hbad).
    { induction l as [|y l IH]; [done|]. simpl in Hv.
      apply andb_false_iff in Hv as [Hy|Hl].
      - exists y. split; [by left | done].
      - destruct (IH Hl) as (x & ? & ?). exists x. split; [by right | done]. }
    unfold dedup. eapply foldM_raises; [exact Hx|].
    intros d. by apply invalid_dedup_step.
Qed.

(** X23: the deduplication loop returns a dictionary exactly when every
    record has an id and a price that [float] accepts; when it raises, the
    exception is the one that [it["id"]] or [float(it["price"])] raises on
    one of the records of the list. *)
Theorem dedup_succeeds_iff_records_readable (fs : string → option pyfloat)
    (kiwi_data : list itinerary) :
  is_ok (dedup fs kiwi_data) = forallb (valid fs) kiwi_data
  ∧ (∀ e, dedup fs kiwi_data = Raise e →
       ∃ it, it ∈ kiwi_data ∧ (get_id it = Raise e ∨ get_price fs it = Raise e)).
Proof.
  split; [apply dedup_is_ok | apply dedup_error_source].
Qed.

Lemma dedup_succeeds_iff_records_readable_witness :
  ∃ it, it ∈ [kiwi_direct; kiwi_no_price; kiwi_bad_price]
      ∧ (get_id it = Raise KeyError
         ∨ get_price Run.float_of_decimal it = Raise KeyError).
Proof.
  apply (proj2 (dedup_succeeds_iff_records_readable Run.float_of_decimal
                  [kiwi_direct; kiwi_no_price; kiwi_bad_price]) KeyError).
  by vm_compute.
Defined.

(** ** The Kiwi mapper and the analysis *)

(** X24: every record written by [simplify_kiwi_json] has an ["id"] and a
    ["price"] key, so reading them never raises KeyError; the deduplication
    of the analysis succeeds on the simplified list exactly when every raw
    itinerary has a [priceEur.amount] that [float] accepts (a missing amount
    is written as [null] and makes [float] raise); the hub count of a
    simplified record is that of the raw sector lists. *)
Theorem simplified_kiwi_records (fs : string → option pyfloat)
    (itineraries : list SimplifyKiwi.kiwi_raw_itinerary) :
  dedup fs (SimplifyKiwi.simplify_kiwi_json itineraries) ≠ Raise KeyError
  ∧ is_ok (dedup fs (SimplifyKiwi.simplify_kiwi_json itineraries))
    = forallb (λ raw, is_ok (py_float fs (default JNull
                                            (SimplifyKiwi.priceEur_amount raw))))
              itineraries
  ∧ map compute_hub_count (SimplifyKiwi.simplify_kiwi_json itineraries)
    = map (λ raw,
             Z.max (Z.max (Z.of_nat (length (SimplifyKiwi.raw_outbound raw)) - 1)
                          (Z.of_nat (length (SimplifyKiwi.raw_inbound raw)) - 1)) 0)
          itineraries.
Proof.
  split; [|split].
  - intros He.
    apply dedup_error_source in He as (it & Hit & Herr).
    unfold SimplifyKiwi.simplify_kiwi_json in Hit.
    apply list_elem_of_fmap in Hit as (raw & -> & _).
    destruct Herr as [Hid|Hp]; [done|].
    unfold get_price, SimplifyKiwi.simplify_itinerary in Hp. simpl in Hp.
    unfold py_float in Hp.
    destruct (default JNull _) as [f|s|]; [done| |done]. by destruct (fs s).
  - rewrite dedup_is_ok. unfold SimplifyKiwi.simplify_kiwi_json.
    induction itineraries as [|raw l IH]; [done|]. simpl. by rewrite IH.
  - unfold SimplifyKiwi.simplify_kiwi_json. rewrite map_map. apply map_ext.
    intros raw. unfold compute_hub_count, SimplifyKiwi.simplify_itinerary. simpl.
    rewrite !length_map.
    repeat case_match; rewrite ?Z.ltb_lt, ?Z.ltb_ge in *; lia.
Qed.

(** ** Bounds of the guarded percentages *)


Lemma List_filter_and_length {A} (p q : A → bool) (l : list A) :
  length (List.filter (λ x, p x && q x) l) ≤ length (List.filter p l).
Proof.
  induction l as [|x l IH]; [done|]. simpl.
  destruct (p x), (q x); simpl; lia.
Qed.





(** ** Missing flights and constructible itineraries *)

Lemma elem_of_flight_universe (B : list itinerary) (f : string) :
  f ∈ flight_universe B ↔ ∃ it, it ∈ B ∧ f ∈ flight_strings it.
Proof.
  unfold flight_universe. rewrite elem_of_concat. split.
  - intros (l & (it & -> & Hit)%list_elem_of_fmap & Hf). eauto.
  - intros (it & Hit & Hf). exists (flight_strings it).
    split; [by apply list_elem_of_fmap_2 | done].
Qed.

Lemma every_flight_offered_spec (itin : itinerary) (B : list itinerary) :
  every_flight_offered itin B = true
  ↔ ∀ f, f ∈ flight_strings itin → f ∈ flight_universe B.
Proof.
  unfold every_flight_offered. rewrite forallb_forall. split.
  - intros H f Hf. apply list_elem_of_In in Hf. apply H in Hf.
    by apply bool_decide_eq_true in Hf.
  - intros H f Hf. apply bool_decide_eq_true, H. by apply list_elem_of_In.
Qed.

(** X26: on well-formed, non-empty input, a retained Kiwi itinerary whose
    identity is missing from eDreams and that names at least one flight is
    counted as constructible exactly when none of its flight strings is
    reported among the missing flights. *)
Theorem constructible_iff_no_missing_flight (fs : string → option pyfloat)
    (h : hash_order) (kiwi_data edreams_data : list itinerary) :
  forallb (valid fs) kiwi_data = true →
  forallb (valid fs) edreams_data = true →
  kiwi_data ≠ [] → edreams_data ≠ [] →
  ∃ r d, analyze_journey fs h kiwi_data edreams_data = Ok r
       ∧ dedup fs kiwi_data = Ok d
       ∧ ∀ itin, itin ∈ od_values d → rid itin ∉ ids edreams_data →
           names_a_flight itin = true →
           (constructible itin (flights_of edreams_data) = true
            ↔ ∀ f, f ∈ flight_strings itin → f ∉ Missing_Flights r).
Proof.
  intros Hk He Hkne Hene.
  exists (analyze_pure fs h kiwi_data edreams_data), (dedup_pure fs kiwi_data).
  split; [by apply analyze_journey_ok|]. split; [by apply dedup_ok|].
  intros itin Hin Hmissing Hnames.
  rewrite constructible_spec, Hnames. simpl. rewrite every_flight_offered_spec.
  unfold analyze_pure. cbn [Missing_Flights].
  rewrite !flights_of_spec, dedup_pure_ids.
  assert (∀ f, f ∈ flight_strings itin →
            f ∈ flight_universe
                  (List.filter
                     (λ it, bool_decide (rid it ∈ ids kiwi_data ∖ ids edreams_data))
                     (od_values (dedup_pure fs kiwi_data)))) as Hown.
  { intros f Hf. apply elem_of_flight_universe. exists itin. split; [|done].
    apply List_filter_elem_of. split; [done|]. apply bool_decide_eq_true.
    apply elem_of_difference. split; [|done].
    rewrite <- (dedup_pure_ids fs). apply elem_of_ids. eauto. }
  split.
  - intros Hall f Hf. rewrite elem_of_difference, !elem_of_list_to_set.
    intros [_ Hnot]. apply Hnot. by apply Hall.
  - intros Hnone f Hf. specialize (Hnone f Hf).
    rewrite elem_of_difference, !elem_of_list_to_set in Hnone.
    destruct (decide (f ∈ flight_universe edreams_data)) as [|Hnot]; [done|].
    exfalso. apply Hnone. split; [by apply Hown | done].
Qed.

Lemma constructible_iff_no_missing_flight_witness :
  ∃ r d, analyze_journey Run.float_of_decimal Run.ascending
           [kiwi_via_lisbon; kiwi_direct] [edreams_direct] = Ok r
       ∧ dedup Run.float_of_decimal [kiwi_via_lisbon; kiwi_direct] = Ok d
       ∧ ∀ itin, itin ∈ od_values d → rid itin ∉ ids [edreams_direct] →
           names_a_flight itin = true →
           (constructible itin (flights_of [edreams_direct]) = true
            ↔ ∀ f, f ∈ flight_strings itin → f ∉ Missing_Flights r).
Proof. apply constructible_iff_no_missing_flight; by vm_compute. Defined.

(** ** Hub rows *)

Lemma add_location_step (locs : gset string) (seg : segment) (hub : string) :
  hub ∈ (let locs1 :=
           if truthy (sourceStationId seg)
           then locs ∪ {[default "" (sourceStationId seg)]} else locs in
         if truthy (destinationStationId seg)
         then locs1 ∪ {[default "" (destinationStationId seg)]} else locs1) →
  hub ∈ locs ∨ touches seg hub = true.
Proof.
  unfold touches. simpl.
  destruct (sourceStationId seg) as [s|], (destinationStationId seg) as [t|]; simpl;
    repeat match goal with
           | |- context [String.eqb ?x ""] => destruct (String.eqb x ""); simpl
           end;
    rewrite ?elem_of_union, ?elem_of_singleton; intros H; destruct_or?; subst;
    first [ by left
          | right; by rewrite bool_decide_eq_true_2
          | right; rewrite (bool_decide_eq_true_2 (Some t = Some t)) by done;
            by rewrite orb_true_r ].
Qed.

Lemma add_locations_elem (locs : gset string) (segs : list segment) (hub : string) :
  hub ∈ add_locations locs segs →
  hub ∈ locs ∨ existsb (λ seg, touches seg hub) segs = true.
Proof.
  unfold add_locations. revert locs.
  induction segs as [|seg segs IH]; intros locs; simpl; [by left|].
  intros [Hin|Hex]%IH; [|right; by rewrite Hex, orb_true_r].
  apply add_location_step in Hin as [Hin|Ht]; [by left|].
  right. by rewrite Ht.
Qed.

Lemma locations_elem (l : list itinerary) (hub : string) :
  hub ∈ locations l → ∃ it, it ∈ l ∧ uses_hub it hub = true.
Proof.
  unfold locations.
  assert (∀ acc,
            hub ∈ fold_left
                    (λ locs itin,
                       add_locations (add_locations locs (outbound itin)) (inbound itin))
                    l acc →
            hub ∈ acc ∨ ∃ it, it ∈ l ∧ uses_hub it hub = true) as Hgen.
  { induction l as [|x l IH]; intros acc; simpl; [by left|].
    intros [Hin|(it & Hit & Huse)]%IH.
    - apply add_locations_elem in Hin as [Hin|Hex].
      + apply add_locations_elem in Hin as [Hin|Hex]; [by left|].
        right. exists x. split; [by left|]. unfold uses_hub. by rewrite Hex.
      + right. exists x. split; [by left|]. unfold uses_hub.
        by rewrite Hex, orb_true_r.
    - right. exists it. split; [by right | done]. }
  intros [Hin|?]%Hgen; [set_solver | done].
Qed.

Lemma hub_row_pure_counts (cheaper_ids : list string) (l : list itinerary)
    (hub : string) :
  hub_row_pure cheaper_ids l hub
  = HubInfo hub
      (length (List.filter (λ it, uses_hub it hub) l))
      (length (List.filter
                 (λ it, uses_hub it hub && bool_decide (rid it ∈ cheaper_ids)) l)).
Proof.
  unfold hub_row_pure.
  assert (∀ c : nat * nat,
            fold_left
              (λ (counts : nat * nat) itin,
                 if uses_hub itin hub then
                   (S counts.1,
                    if bool_decide (rid itin ∈ cheaper_ids)
                    then S counts.2 else counts.2)
                 else counts) l c
            = (c.1 + length (List.filter (λ it, uses_hub it hub) l),
               c.2 + length (List.filter
                               (λ it, uses_hub it hub
                                      && bool_decide (rid it ∈ cheaper_ids)) l)))
    as Hgen.
  { induction l as [|x l IH]; intros [a b]; simpl; [f_equal; lia|].
    rewrite IH. destruct (uses_hub x hub); simpl; [|done].
    destruct (bool_decide _); simpl; f_equal; lia. }
  by rewrite Hgen.
Qed.

(** X27: on well-formed, non-empty input the report has one hub row per
    missing hub city; every row is used by at least one retained Kiwi
    itinerary and by no more than there are distinct Kiwi identities, its
    cheaper usage does not exceed its usage, and the count of missing
    cheaper hubs does not exceed the number of missing hub cities. *)
Theorem hub_rows_usage (fs : string → option pyfloat) (h : hash_order)
    (kiwi_data edreams_data : list itinerary) :
  forallb (valid fs) kiwi_data = true →
  forallb (valid fs) edreams_data = true →
  kiwi_data ≠ [] → edreams_data ≠ [] →
  ∃ r, analyze_journey fs h kiwi_data edreams_data = Ok r
     ∧ length (Hub_Breakdown r) = size (Missing_Hub_Cities r)
     ∧ Missing_Cheaper_Hubs_Count r ≤ size (Missing_Hub_Cities r)
     ∧ ∀ row, row ∈ Hub_Breakdown r →
         Hub row ∈ Missing_Hub_Cities r
         ∧ 1 ≤ Usage row
         ∧ Usage row ≤ size (ids kiwi_data)
         ∧ Cheaper_Usage row ≤ Usage row.
Proof.
  intros Hk He Hkne Hene. exists (analyze_pure fs h kiwi_data edreams_data).
  split; [by apply analyze_journey_ok|].
  unfold analyze_pure. cbn [Hub_Breakdown Missing_Hub_Cities Missing_Cheaper_Hubs_Count].
  set (uk := od_values (dedup_pure fs kiwi_data)).
  set (missing := locations uk ∖ locations edreams_data).
  assert (length (map (hub_row_pure
                         (map rid (List.filter
                                     (cheaper_than fs (lowest (map (rprice fs) edreams_data)))
                                     kiwi_data)) uk)
                      (set_iter h missing)) = size missing) as Hlen.
  { by rewrite length_map, set_iter_length. }
  split; [done|]. split.
  { rewrite <- Hlen. apply length_filter. }
  intros row (hub & -> & Hhub)%list_elem_of_fmap.
  rewrite hub_row_pure_counts. simpl.
  assert (hub ∈ missing) as Hm.
  { apply elem_of_elements. by rewrite <- (set_iter_perm h missing). }
  split; [done|]. split; [|split].
  - apply elem_of_difference in Hm as [Hloc _].
    apply locations_elem in Hloc as (it & Hit & Huse).
    assert (it ∈ List.filter (λ it, uses_hub it hub) uk) as Hf
      by by apply List_filter_elem_of.
    destruct (List.filter _ uk); [by apply elem_of_nil in Hf | simpl; lia].
  - etrans; [apply List_filter_length|]. subst uk. by rewrite dedup_pure_length.
  - apply List_filter_and_length.
Qed.

Lemma hub_rows_usage_witness :
  ∃ r, analyze_journey Run.float_of_decimal Run.descending
         [kiwi_two_hubs; kiwi_via_lisbon; kiwi_direct] [edreams_direct] = Ok r
     ∧ length (Hub_Breakdown r) = size (Missing_Hub_Cities r)
     ∧ Missing_Cheaper_Hubs_Count r ≤ size (Missing_Hub_Cities r)
     ∧ ∀ row, row ∈ Hub_Breakdown r →
         Hub row ∈ Missing_Hub_Cities r
         ∧ 1 ≤ Usage row
         ∧ Usage row
           ≤ size (ids [kiwi_two_hubs; kiwi_via_lisbon; kiwi_direct])
         ∧ Cheaper_Usage row ≤ Usage row.
Proof. apply hub_rows_usage; by vm_compute. Defined.

(** ** analysis2.py *)

Lemma size_list_to_set_le (l : list string) :
  size (list_to_set (C:=gset string) l) ≤ length l.
Proof.
  induction l as [|x l IH]; simpl; [done|].
  destruct (decide (x ∈ (list_to_set l : gset string))) as [Hin|Hnot].
  - assert ({[x]} ∪ list_to_set l = (list_to_set l : gset string)) as -> by set_solver.
    lia.
  - rewrite size_union by set_solver. rewrite size_singleton. lia.
Qed.

Lemma List_filter_negb_length {A} (p : A → bool) (l : list A) :
  length (List.filter (λ x, negb (p x)) l) + length (List.filter p l) = length l.
Proof. induction l as [|x l IH]; [done|]. simpl. destruct (p x); simpl; lia. Qed.

Lemma shared_ids_le_records (kiwi_data edreams_data : list itinerary) :
  size (ids kiwi_data ∩ ids edreams_data)
  ≤ length (List.filter (λ it, bool_decide (rid it ∈ ids edreams_data)) kiwi_data).
Proof.
  rewrite <- (length_map rid
                (List.filter (λ it, bool_decide (rid it ∈ ids edreams_data)) kiwi_data)).
  etrans; [|apply size_list_to_set_le].
  apply subseteq_size. intros i [Hk He]%elem_of_intersection.
  apply elem_of_ids in Hk as (it & Hit & <-).
  apply elem_of_list_to_set, list_elem_of_fmap. exists it. split; [done|].
  apply List_filter_elem_of. split; [done|]. by apply bool_decide_eq_true.
Qed.

Lemma raw_numerator_le (fs : string → option pyfloat) (kiwi_data edreams_data : list itinerary) :
  Analysis2.raw_numerator fs kiwi_data edreams_data ≤ length kiwi_data.
Proof.
  unfold Analysis2.raw_numerator.
  rewrite <- (List_filter_negb_length
                (λ it, bool_decide (rid it ∈ ids edreams_data)) kiwi_data).
  apply Nat.add_le_mono.
  - apply (List_filter_and_length
             (λ it, negb (bool_decide (rid it ∈ ids edreams_data)))).
  - etrans; [apply count_ids_le|]. apply shared_ids_le_records.
Qed.

Lemma analysis2_numerator (fs : string → option pyfloat) (h : hash_order)
    (kiwi_data edreams_data : list itinerary) :
  length (List.filter
            (λ entry,
               bool_decide (rid entry ∈ ids kiwi_data
                                        ∖ (ids kiwi_data ∩ ids edreams_data))
               && cheaper_than fs (lowest (map (rprice fs) edreams_data)) entry)
            kiwi_data)
  + (fold_left (compare_pure_step fs edreams_data kiwi_data)
               (set_iter h (ids kiwi_data ∩ ids edreams_data)) (0, 0)).2
  = Analysis2.raw_numerator fs kiwi_data edreams_data.
Proof.
  unfold Analysis2.raw_numerator. rewrite compare_pure_counts. cbn [snd].
  rewrite set_iter_count. simpl. f_equal.
  f_equal. apply List_filter_ext_in. intros it Hit. f_equal.
  assert (rid it ∈ ids kiwi_data) by (apply elem_of_ids; eauto).
  destruct (decide (rid it ∈ ids edreams_data)) as [Hin|Hnot].
  - rewrite (bool_decide_eq_true_2 (rid it ∈ ids edreams_data)) by done.
    rewrite bool_decide_eq_false_2; [done | set_solver].
  - rewrite (bool_decide_eq_false_2 (rid it ∈ ids edreams_data)) by done.
    rewrite bool_decide_eq_true_2; [done | set_solver].
Qed.

(** X28: on well-formed, non-empty input the older script returns its
    summary; its overall percentage is 100 times the count of cheaper raw
    Kiwi records and shared identities divided by the number of raw Kiwi
    records plus the number of raw eDreams records (no deduplication and no
    subtraction of the shared identities, unlike [analyze_journey]), and it
    lies between 0 and 100. *)
Theorem analysis2_overall_percentage (fs : string → option pyfloat) (h : hash_order)
    (kiwi_data edreams_data : list itinerary) :
  forallb (valid fs) kiwi_data = true →
  forallb (valid fs) edreams_data = true →
  kiwi_data ≠ [] → edreams_data ≠ [] →
  ∃ s, Analysis2.run fs h kiwi_data edreams_data = Ok s
     ∧ Analysis2.Total_Kiwi_itineraries s = size (ids kiwi_data)
     ∧ Analysis2.Repeated_itineraries s = size (ids kiwi_data ∩ ids edreams_data)
     ∧ Analysis2.Percent_Kiwi_cheaper_overall s
       = (inject_Z (100 * Z.of_nat (Analysis2.raw_numerator fs kiwi_data edreams_data))
          / inject_Z (Z.of_nat (length kiwi_data) + Z.of_nat (length edreams_data)))%Q
     ∧ is_percentage (Analysis2.Percent_Kiwi_cheaper_overall s).
Proof.
  intros Hk He Hkne Hene. unfold Analysis2.run.
  rewrite (id_set_ok fs _ Hk), bind_ok.
  rewrite (id_set_ok fs _ He), bind_ok.
  rewrite (cheapest_ok fs _ He Hene), bind_ok.
  rewrite (cheapest_ok fs _ Hk Hkne), bind_ok.
  rewrite (ids_cheaper_than_ok fs _ _ Hk), bind_ok.
  rewrite (compare_ok fs h _ _ _ He Hk), bind_ok by set_solver.
  rewrite ?percent_or_zero_ok, ?bind_ok.
  rewrite (count_cheaper_non_repeated_ok fs _ _ _ Hk), bind_ok.
  assert (0 < length kiwi_data) as Hpos by (destruct kiwi_data; [done | simpl; lia]).
  rewrite truediv_ok, bind_ok by lia.
  eexists. split; [reflexivity|]. cbn.
  split; [done|]. split; [done|].
  rewrite analysis2_numerator.
  split; [done|].
  pose proof (raw_numerator_le fs kiwi_data edreams_data) as Hle.
  assert (0 < inject_Z (Z.of_nat (length kiwi_data) + Z.of_nat (length edreams_data)))%Q
    as HdenQ.
  { change 0%Q with (inject_Z 0). rewrite <- Zlt_Qlt. lia. }
  split.
  - apply Qle_shift_div_l; [done|]. rewrite Qmult_0_l.
    change 0%Q with (inject_Z 0). rewrite <- Zle_Qle. lia.
  - apply Qle_shift_div_r; [done|].
    change 100%Q with (inject_Z 100). rewrite <- inject_Z_mult, <- Zle_Qle. lia.
Qed.

Lemma analysis2_overall_percentage_witness :
  ∃ s, Analysis2.run Run.float_of_decimal Run.ascending
         [kiwi_via_lisbon; kiwi_via_porto; kiwi_direct] [edreams_direct] = Ok s
     ∧ Analysis2.Total_Kiwi_itineraries s
       = size (ids [kiwi_via_lisbon; kiwi_via_porto; kiwi_direct])
     ∧ Analysis2.Repeated_itineraries s
       = size (ids [kiwi_via_lisbon; kiwi_via_porto; kiwi_direct] ∩ ids [edreams_direct])
     ∧ Analysis2.Percent_Kiwi_cheaper_overall s
       = (inject_Z (100 * Z.of_nat (Analysis2.raw_numerator Run.float_of_decimal
                                      [kiwi_via_lisbon; kiwi_via_porto; kiwi_direct]
                                      [edreams_direct]))
          / inject_Z (Z.of_nat (length [kiwi_via_lisbon; kiwi_via_porto; kiwi_direct])
                      + Z.of_nat (length [edreams_direct])))%Q
     ∧ is_percentage (Analysis2.Percent_Kiwi_cheaper_overall s).
Proof. apply analysis2_overall_percentage; by vm_compute. Defined.

